(** * take_candles: the paginated kline fetcher and its CSV sink

    A shallow embedding of the TypeScript sources

      - [src/types/candle.ts]               (Candle, CandleWithISO)
      - [src/utils/time.ts]                 (formatCandleTime, delay)
      - [src/utils/file.ts]                 (saveCandlesToFile)
      - [src/services/binance.service.ts]   (mapCandle, fetchCandles)
      - [src/config/env.ts]                 (envSchema, env)
      - [src/index.ts]                      (main)
      - the standalone legacy script        (mapCandle, saveCandlesToFile,
                                             fetchCandles with fixed constants)

    The program talks to the outside world (HTTP, timers, console, file
    system, process exit).  Those effects are recorded, in program order, in
    a trace of events; the upstream server is a function from the call
    number and the request parameters to a response. *)

From Stdlib Require Import ZArith String Ascii List Lia Bool.
From Stdlib Require Import DecimalString Sorting.Sorted.
From stdpp Require Import base option list sorting gmap strings.
Import ListNotations.

Local Open Scope string_scope.
Local Open Scope list_scope.
Local Open Scope Z_scope.

(** ** JavaScript built-ins used by the sources *)

Module JS.

(** The time value of a [Date], and the numbers the fetch loop uses as
    [startTime]: an integral number of milliseconds, or [NaN]. *)
Inductive number : Type :=
| NaN
| Num (z : Z).

(** ECMAScript: a time value is valid when its magnitude is at most
    8.64e15 ms; [new Date(t)] clips anything else to [NaN]. *)
Definition MAX_TIME : Z := 8640000000000000.

Definition TimeClip (t : number) : number :=
  match t with
  | NaN => NaN
  | Num z => if Z.abs z <=? MAX_TIME then Num z else NaN
  end.

(** [String(n)] for an integral number.  Every integer that reaches a
    template literal in the sources has passed [TimeClip], so it is below
    1e21 and JavaScript prints it in plain decimal notation. *)
Definition Number_toString (z : Z) : string :=
  NilZero.string_of_int (Z.to_int z).

Definition nl : string := String (ascii_of_nat 10) EmptyString.

(** [Array.prototype.join] on an array of strings. *)
Fixpoint join (sep : string) (l : list string) : string :=
  match l with
  | [] => ""
  | [x] => x
  | x :: rest => x +:+ sep +:+ join sep rest
  end.

Fixpoint zeros (n : nat) : string :=
  match n with
  | O => ""
  | S k => "0" +:+ zeros k
  end.

(** Decimal digits of a non-negative [z], left-padded with zeros to at
    least [width] characters. *)
Definition padded (width : nat) (z : Z) : string :=
  let s := Number_toString z in
  zeros (width - String.length s) +:+ s.

Definition msPerDay : Z := 86400000.

(** Civil date (year, month, day) of a day number counted from
    1970-01-01, in the proleptic Gregorian calendar. *)
Definition civil_from_days (days : Z) : Z * Z * Z :=
  let z := days + 719468 in
  let era := z / 146097 in
  let doe := z - era * 146097 in
  let yoe := (doe - doe / 1460 + doe / 36524 - doe / 146096) / 365 in
  let y := yoe + era * 400 in
  let doy := doe - (365 * yoe + yoe / 4 - yoe / 100) in
  let mp := (5 * doy + 2) / 153 in
  let d := doy - (153 * mp + 2) / 5 + 1 in
  let m := if mp <? 10 then mp + 3 else mp - 9 in
  (if m <=? 2 then y + 1 else y, m, d).

(** The year of an ISO string: four digits for years 0..9999, otherwise a
    sign and six digits. *)
Definition iso_year (y : Z) : string :=
  if (0 <=? y) && (y <=? 9999) then padded 4 y
  else if y <? 0 then "-" +:+ padded 6 (- y)
  else "+" +:+ padded 6 y.

(** [Date.prototype.toISOString] on a valid time value. *)
Definition iso_of_time (t : Z) : string :=
  let days := t / msPerDay in
  let rem := t mod msPerDay in
  let '(y, m, d) := civil_from_days days in
  let hh := rem / 3600000 in
  let mm := (rem / 60000) mod 60 in
  let ss := (rem / 1000) mod 60 in
  let ms := rem mod 1000 in
  iso_year y +:+ "-" +:+ padded 2 m +:+ "-" +:+ padded 2 d +:+ "T" +:+
  padded 2 hh +:+ ":" +:+ padded 2 mm +:+ ":" +:+ padded 2 ss +:+ "." +:+
  padded 3 ms +:+ "Z".

(** [new Date(ts).toISOString()]: [None] stands for the [RangeError]
    ("Invalid time value") thrown on an invalid date. *)
Definition Date_toISOString (ts : number) : option string :=
  match TimeClip ts with
  | NaN => None
  | Num t => Some (iso_of_time t)
  end.

(** [Number(s)] on a string, as far as [Number.isInteger] and a
    comparison with 0 tell numbers apart: [NonInteger] stands for the
    infinities and for every finite number with a fractional part. *)
Inductive coerced : Type :=
| NotANumber
| Integer (z : Z)
| NonInteger.

End JS.

Import JS.

(** ** src/types/candle.ts *)

(** [interface Candle]: prices and volume stay decimal strings. *)
Record Candle : Type := {
  openTime : Z;
  open : string;
  high : string;
  low : string;
  close : string;
  volume : string;
  closeTime : Z;
}.

(** [interface CandleWithISO extends Candle]. *)
Record CandleWithISO : Type := {
  candle :> Candle;
  openISO : string;
  closeISO : string;
}.

(** ** The outside world *)

(** One element of the upstream JSON array.  The sources type it [any[]] and
    read positions 0 to 6 only; the embedding fixes the documented layout
    of those positions (integer milliseconds at 0 and 6, decimal strings at
    1 to 5) and drops the positions that are never read. *)
Record raw : Type := {
  raw0 : Z;
  raw1 : string;
  raw2 : string;
  raw3 : string;
  raw4 : string;
  raw5 : string;
  raw6 : Z;
}.

(** The [params] object of the klines request. *)
Module Params.
Record t : Type := {
  symbol : string;
  interval : string;
  startTime : number;
  limit : Z;
}.
End Params.

(** What [await axios.get(...)] gives: the promise rejects (transport
    failure, non-2xx status, a body that is not an array of klines), or
    [response.data] is an array of klines. *)
Inductive response : Type :=
| Throw
| Data (rawCandles : list raw).

(** Directory a relative file name is joined to: [process.cwd()] in the
    service, [__dirname] in the legacy script. *)
Inductive directory : Type := Cwd | Dirname.

(** Console messages; clock readings (elapsed seconds) are left out. *)
Inductive message : Type :=
| MsgFetching (symbol interval start : string)
| MsgErrorFetching
| MsgSaved (count : nat) (dir : directory) (file : string)
| MsgCompleted
| MsgInvalidEnv
| MsgZodIssues
| MsgFatal
| MsgStarting (symbol interval startISO : string)
| MsgNoMore
| MsgFetchedFrom (count : nat) (startISO : string)
| MsgFetchedTotal (count total : nat).

Inductive event : Type :=
| HttpGet (p : Params.t)
| Delay (ms : Z)
| ConsoleLog (m : message)
| ConsoleError (m : message)
| WriteFile (dir : directory) (file : string) (data : string)
| Exit (code : Z)
| Uncaught.

Definition trace : Type := list event.

(** How a call of an [async] function ends: its promise is fulfilled, or
    it is rejected with the exception that left the function. *)
Inductive completion : Type := Returns | Rejects.

(** The events of a call, whatever its completion. *)
Definition events (r : option (trace * completion)) : option trace :=
  fst <$> r.

(** The validated configuration ([env] of src/config/env.ts). *)
Record Env : Type := {
  SYMBOL : string;
  INTERVAL : string;
  LIMIT : Z;
  REQ_DELAY_MS : Z;
  START_DATE : string;
  OUTPUT_FILE : string;
}.

(** ** src/utils/time.ts *)

Definition formatCandleTime (ts : number) : option string :=
  Date_toISOString ts.

Definition delay (ms : Z) : trace := [Delay ms].

(** ** src/utils/file.ts *)

Definition header : string :=
  "openTime,open,high,low,close,volume,closeTime,openISO,closeISO" +:+ nl.

Definition row (c : CandleWithISO) : string :=
  Number_toString (openTime c) +:+ "," +:+ open c +:+ "," +:+ high c +:+ ","
  +:+ low c +:+ "," +:+ close c +:+ "," +:+ volume c +:+ "," +:+
  Number_toString (closeTime c) +:+ "," +:+ openISO c +:+ "," +:+ closeISO c.

Definition csv (candles : list CandleWithISO) : string :=
  header +:+ join nl (map row candles).

(** [writeFileSync dir file data] tells whether the file system takes the
    write; when it does not, [fs.writeFileSync] throws and the message
    after it is not printed.  [WriteFile] records the call. *)
Definition saveCandlesToFile
    (writeFileSync : directory -> string -> string -> bool)
    (candles : list CandleWithISO) (dir : directory) (file : string)
    : trace * completion :=
  if writeFileSync dir file (csv candles) then
    ([WriteFile dir file (csv candles);
      ConsoleLog (MsgSaved (length candles) dir file)], Returns)
  else ([WriteFile dir file (csv candles)], Rejects).

(** ** src/services/binance.service.ts *)

Definition mapCandle (r : raw) : option CandleWithISO :=
  oISO ← formatCandleTime (Num (raw0 r));
  cISO ← formatCandleTime (Num (raw6 r));
  Some {| candle := {| openTime := raw0 r; open := raw1 r; high := raw2 r;
                       low := raw3 r; close := raw4 r; volume := raw5 r;
                       closeTime := raw6 r |};
          openISO := oISO; closeISO := cISO |}.

(** The local variables of [fetchCandles] that the loop updates. *)
Record locals : Type := {
  allCandles : list CandleWithISO;
  startTime : number;
  fetchMore : bool;
}.

(** How one pass through the body of [while (fetchMore)] ends. *)
Inductive flow : Type := Next | Break.

(** *** Observations on a trace *)

(** The requests sent upstream, in order. *)
Definition requests (t : trace) : list Params.t :=
  omap (fun e => match e with HttpGet p => Some p | _ => None end) t.

(** The delays awaited, in order. *)
Definition delays (t : trace) : list Z :=
  omap (fun e => match e with Delay ms => Some ms | _ => None end) t.

(** The contents handed to [fs.writeFileSync], in order. *)
Definition written (t : trace) : list string :=
  omap (fun e => match e with WriteFile _ _ data => Some data | _ => None end) t.

(** The open times of a sequence of candles, in order. *)
Definition openTimes (candles : list CandleWithISO) : list Z :=
  map (fun c : CandleWithISO => openTime c) candles.

(** [a < b] on JavaScript numbers with [a] integral: false on [NaN]. *)
Definition number_gt (b : number) (a : Z) : Prop :=
  match b with
  | NaN => False
  | Num z => a < z
  end.

(** [a <= b] on JavaScript numbers with [b] integral: false on [NaN]. *)
Definition number_le (a : number) (b : Z) : Prop :=
  match a with
  | NaN => False
  | Num z => z <= b
  end.

Section Service.

(** [new Date(s).getTime()] is the runtime's date parser. *)
Variable Date_getTime : string -> number.
(** The server: its answer to the [n]-th request (counted from 0). *)
Variable upstream : nat -> Params.t -> response.
Variable env : Env.
(** The largest number of arguments the engine passes to one call:
    [allCandles.push(...candles)] throws a [RangeError] on a longer page.
    The number depends on the engine and its stack; it is at least 1. *)
Variable max_arguments : positive.
(** The file system: whether it takes a write. *)
Variable writeFileSync : directory -> string -> string -> bool.

Definition request (st : locals) : Params.t :=
  {| Params.symbol := SYMBOL env; Params.interval := INTERVAL env;
     Params.startTime := startTime st; Params.limit := LIMIT env |}.

Definition caught (st : locals) : locals :=
  {| allCandles := allCandles st; startTime := startTime st;
     fetchMore := false |}.

(** The [try { ... } catch { ... }] of the loop, run as the [n]-th
    iteration from the locals [st].  An exception anywhere in the [try]
    (the request, [toISOString] inside [mapCandle], the spread call of
    [push] on a page of more than [max_arguments] candles) lands in the
    [catch].  [closeTime + 1] is exact: a mapped close time is a valid time
    value, far below 2^53. *)
Definition body (n : nat) (st : locals) : trace * locals * flow :=
  match upstream n (request st) with
  | Throw =>
      ([HttpGet (request st); ConsoleError MsgErrorFetching], caught st, Next)
  | Data rawCandles =>
      if (length rawCandles =? 0)%nat then
        ([HttpGet (request st)], st, Break)
      else
        match mapM mapCandle rawCandles with
        | None =>
            ([HttpGet (request st); ConsoleError MsgErrorFetching],
             caught st, Next)
        | Some candles =>
            if Z.pos max_arguments <? Z.of_nat (length candles) then
              ([HttpGet (request st); ConsoleError MsgErrorFetching],
               caught st, Next)
            else
              match last candles with
              | None =>
                  ([HttpGet (request st); ConsoleError MsgErrorFetching],
                   caught {| allCandles := allCandles st ++ candles;
                             startTime := startTime st;
                             fetchMore := fetchMore st |}, Next)
              | Some c =>
                  ([HttpGet (request st)] ++ delay (REQ_DELAY_MS env),
                   {| allCandles := allCandles st ++ candles;
                      startTime := Num (closeTime c + 1);
                      fetchMore :=
                        if Z.of_nat (length candles) <? LIMIT env then false
                        else fetchMore st |},
                   Next)
              end
        end
  end.

(** [while (fetchMore) { ... }]; [None] when [fuel] iterations were not
    enough to leave the loop. *)
Fixpoint while (fuel : nat) (n : nat) (st : locals) : option (trace * locals) :=
  if fetchMore st then
    match fuel with
    | O => None
    | S fuel' =>
        match body n st with
        | (evs, st', Break) => Some (evs, st')
        | (evs, st', Next) =>
            '(t, st'') ← while fuel' (S n) st';
            Some (evs ++ t, st'')
        end
    end
  else Some ([], st).

Definition initial : locals :=
  {| allCandles := []; startTime := Date_getTime (START_DATE env);
     fetchMore := true |}.

(** [fetchCandles()]: the write is outside the [try], so a failed write
    rejects the call, before the closing message. *)
Definition fetchCandles (fuel : nat) : option (trace * completion) :=
  '(t, st) ← while fuel 0%nat initial;
  let t := [ConsoleLog (MsgFetching (SYMBOL env) (INTERVAL env)
                          (START_DATE env))] ++ t in
  match saveCandlesToFile writeFileSync (allCandles st) Cwd (OUTPUT_FILE env) with
  | (w, Returns) => Some (t ++ w ++ [ConsoleLog MsgCompleted], Returns)
  | (w, Rejects) => Some (t ++ w, Rejects)
  end.

(** *** The run, iteration by iteration *)

(** The locals with which the next iteration is entered, if the loop
    goes on after iteration [n]. *)
Definition advance (n : nat) (st : locals) : option locals :=
  match body n st with
  | (_, st', Next) => if fetchMore st' then Some st' else None
  | (_, _, Break) => None
  end.

Fixpoint entry_from (n : nat) (st : locals) (k : nat) : option locals :=
  match k with
  | O => Some st
  | S k' => st' ← advance n st; entry_from (S n) st' k'
  end.

(** The locals with which the body is entered for request number [k]
    (counted from 0); [None] when the loop ends before that. *)
Definition entry (k : nat) : option locals := entry_from 0 initial k.

(** The answer to request number [k], when the run sends it. *)
Definition response_at (k : nat) : option response :=
  st ← entry k; Some (upstream k (request st)).

(** The candles mapped from the answer to request number [k]. *)
Definition page (k : nat) : list CandleWithISO :=
  match response_at k with
  | Some (Data rawCandles) => default [] (mapM mapCandle rawCandles)
  | Some Throw | None => []
  end.

(** The candles of the pages answering requests 0 .. k-1. *)
Definition pages_before (k : nat) : list CandleWithISO :=
  concat (map page (seq 0 k)).

(** The ordering the specification expects of a page answering a request
    with cursor [cursor]: strictly increasing open times, each at or
    after the cursor and at or before its close time. *)
Definition well_ordered (cursor : number) (rawCandles : list raw) : Prop :=
  StronglySorted Z.lt (map raw0 rawCandles) /\
  Forall (fun r => number_le cursor (raw0 r) /\ raw0 r <= raw6 r) rawCandles.

End Service.

(** ** src/config/env.ts *)

Section Config.

(** [Number(s)]: ECMAScript's StringToNumber. *)
Variable Number_ : string -> coerced.
(** The test behind zod's [z.string().datetime()]. *)
Variable datetime : string -> bool.
(** The test behind zod's [.int()] on a number that [Number.isInteger]
    accepts: the version of zod is not fixed by the sources, and versions
    differ on integers beyond the safe range (above 2^53 - 1). *)
Variable zod_int : Z -> bool.

(** [z.string().min(1)]; an unset variable is [undefined], not a string. *)
Definition z_string_min_1 (v : option string) : option string :=
  s ← v;
  if (1 <=? String.length s)%nat then Some s else None.

(** [z.coerce.number().int().positive()]; [Number(undefined)] is [NaN]. *)
Definition z_coerce_number_int_positive (v : option string) : option Z :=
  match v with
  | None => None
  | Some s =>
      match Number_ s with
      | Integer z => if zod_int z && (0 <? z) then Some z else None
      | NotANumber | NonInteger => None
      end
  end.

(** [z.string().datetime()]. *)
Definition z_string_datetime (v : option string) : option string :=
  s ← v;
  if datetime s then Some s else None.

(** [envSchema.safeParse(process.env)]: [Some] is [parsed.data] of a
    success, [None] a failure. *)
Definition envSchema_safeParse (process_env : gmap string string) : option Env :=
  symbol ← z_string_min_1 (process_env !! "SYMBOL");
  interval ← z_string_min_1 (process_env !! "INTERVAL");
  limit ← z_coerce_number_int_positive (process_env !! "LIMIT");
  req_delay_ms ← z_coerce_number_int_positive (process_env !! "REQ_DELAY_MS");
  start_date ← z_string_datetime (process_env !! "START_DATE");
  output_file ← z_string_min_1 (process_env !! "OUTPUT_FILE");
  Some {| SYMBOL := symbol; INTERVAL := interval; LIMIT := limit;
          REQ_DELAY_MS := req_delay_ms; START_DATE := start_date;
          OUTPUT_FILE := output_file |}.

(** ** src/index.ts *)

Variable Date_getTime : string -> number.
Variable upstream : nat -> Params.t -> response.
Variable max_arguments : positive.
Variable writeFileSync : directory -> string -> string -> bool.

(** [main]: when [fetchCandles()] rejects, the [catch] prints the fatal
    error and exits with status 1. *)
Definition main (env : Env) (fuel : nat) : option trace :=
  '(t, c) ← fetchCandles Date_getTime upstream env max_arguments
              writeFileSync fuel;
  match c with
  | Returns => Some t
  | Rejects => Some (t ++ [ConsoleError MsgFatal; Exit 1])
  end.

(** The process: importing the service evaluates src/config/env.ts
    first, which exits with status 1 on an invalid environment; only
    then does [main()] run. *)
Definition program (process_env : gmap string string) (fuel : nat)
    : option trace :=
  match envSchema_safeParse process_env with
  | None =>
      Some [ConsoleError MsgInvalidEnv; ConsoleError MsgZodIssues; Exit 1]
  | Some env => main env fuel
  end.

(** *** Invalid settings, in the words of the specification *)

(** Unset or empty. *)
Definition is_empty (v : option string) : Prop :=
  v = None \/ v = Some "".

(** Not a positive integer: unset, or not coerced to an integer above 0. *)
Definition not_positive_integer (v : option string) : Prop :=
  forall s z, v = Some s -> Number_ s = Integer z -> z <= 0.

(** Not a datetime: unset, or refused by the datetime test. *)
Definition not_datetime (v : option string) : Prop :=
  forall s, v = Some s -> datetime s = false.

Definition invalid (process_env : gmap string string) : Prop :=
  not_datetime (process_env !! "START_DATE") \/
  not_positive_integer (process_env !! "LIMIT") \/
  not_positive_integer (process_env !! "REQ_DELAY_MS") \/
  is_empty (process_env !! "SYMBOL") \/
  is_empty (process_env !! "INTERVAL") \/
  is_empty (process_env !! "OUTPUT_FILE").

End Config.

(** ** The legacy standalone script *)

Module Legacy.


Definition mapCandle (r : raw) : option CandleWithISO :=
  oISO ← formatCandleTime (Num (raw0 r));
  cISO ← formatCandleTime (Num (raw6 r));
  Some {| candle := {| openTime := raw0 r; open := raw1 r; high := raw2 r;
                       low := raw3 r; close := raw4 r; volume := raw5 r;
                       closeTime := raw6 r |};
          openISO := oISO; closeISO := cISO |}.

Definition saveCandlesToFile
    (writeFileSync : directory -> string -> string -> bool)
    (candles : list CandleWithISO) (dir : directory) (file : string)
    : trace * completion :=
  let header :=
    "openTime,open,high,low,close,volume,closeTime,openISO,closeISO" +:+ nl in
  let rows :=
    join nl
      (map (fun c : CandleWithISO =>
              Number_toString (openTime c) +:+ "," +:+ open c +:+ "," +:+
              high c +:+ "," +:+ low c +:+ "," +:+ close c +:+ "," +:+
              volume c +:+ "," +:+ Number_toString (closeTime c) +:+ ","
              +:+ openISO c +:+ "," +:+ closeISO c) candles) in
  if writeFileSync dir file (header +:+ rows) then
    ([WriteFile dir file (header +:+ rows);
      ConsoleLog (MsgSaved (length candles) dir file)], Returns)
  else ([WriteFile dir file (header +:+ rows)], Rejects).

(** [let allCandles: Candle[]]: the script keeps the accumulated candles
    at the type [Candle]. *)
Record locals : Type := {
  allCandles : list Candle;
  startTime : number;
  fetchMore : bool;
}.

Section Script.

Variable Date_getTime : string -> number.
Variable upstream : nat -> Params.t -> response.
(** The script's constants, as parameters: [OUTPUT_FILE] and
    [START_DATE] are derived below as the script derives them. *)
Variable c : Env.
Variable max_arguments : positive.
Variable writeFileSync : directory -> string -> string -> bool.

(** [new Date(new Date('...').getTime())]. *)
Definition START_DATE : number := TimeClip (Date_getTime (START_DATE c)).

Definition OUTPUT_FILE : string :=
  SYMBOL c +:+ "_" +:+ INTERVAL c +:+ ".csv".

Definition request (st : locals) : Params.t :=
  {| Params.symbol := SYMBOL c; Params.interval := INTERVAL c;
     Params.startTime := startTime st; Params.limit := LIMIT c |}.

Definition caught (st : locals) : locals :=
  {| allCandles := allCandles st; startTime := startTime st;
     fetchMore := false |}.

Definition failed (st : locals) (logged : trace) : trace * locals * flow :=
  ([HttpGet (request st)] ++ logged ++ [ConsoleError MsgErrorFetching],
   caught st, Next).

(** The loop body of the script.  Unlike the service it prints
    [formatCandleTime(startTime)] inside the [try], before mapping a
    non-empty page.  Its [push(...candles)] has the limit of the
    service's. *)
Definition body (n : nat) (st : locals) : trace * locals * flow :=
  match upstream n (request st) with
  | Throw => failed st []
  | Data rawCandles =>
      if (length rawCandles =? 0)%nat then
        ([HttpGet (request st); ConsoleLog MsgNoMore], st, Break)
      else
        match formatCandleTime (startTime st) with
        | None => failed st []
        | Some iso =>
            let log1 := ConsoleLog (MsgFetchedFrom (length rawCandles) iso) in
            match mapM mapCandle rawCandles with
            | None => failed st [log1]
            | Some candles =>
                if Z.pos max_arguments <? Z.of_nat (length candles) then
                  failed st [log1]
                else
                  let all := allCandles st ++ map candle candles in
                  let log2 :=
                    ConsoleLog (MsgFetchedTotal (length candles) (length all)) in
                  match last candles with
                  | None =>
                      failed {| allCandles := all; startTime := startTime st;
                                fetchMore := fetchMore st |} [log1; log2]
                  | Some k =>
                      ([HttpGet (request st); log1; log2]
                       ++ delay (REQ_DELAY_MS c),
                       {| allCandles := all;
                          startTime := Num (closeTime k + 1);
                          fetchMore :=
                            if Z.of_nat (length candles) <? LIMIT c then false
                            else fetchMore st |},
                       Next)
                  end
            end
        end
  end.

Fixpoint while (fuel : nat) (n : nat) (st : locals) : option (trace * locals) :=
  if fetchMore st then
    match fuel with
    | O => None
    | S fuel' =>
        match body n st with
        | (evs, st', Break) => Some (evs, st')
        | (evs, st', Next) =>
            '(t, st'') ← while fuel' (S n) st';
            Some (evs ++ t, st'')
        end
    end
  else Some ([], st).

Definition initial : locals :=
  {| allCandles := []; startTime := START_DATE; fetchMore := true |}.

(** The array literal handed to [mapCandle] before saving. *)
Definition remap (k : Candle) : option CandleWithISO :=
  mapCandle {| raw0 := openTime k; raw1 := open k; raw2 := high k;
               raw3 := low k; raw4 := close k; raw5 := volume k;
               raw6 := closeTime k |}.

(** [fetchCandles()]: the first message, the re-mapping and the write are
    outside the loop's [try], so an exception there rejects the call. *)
Definition fetchCandles (fuel : nat) : option (trace * completion) :=
  match Date_toISOString START_DATE with
  | None => Some ([], Rejects)
  | Some iso =>
      '(t, st) ← while fuel 0%nat initial;
      let t := [ConsoleLog (MsgStarting (SYMBOL c) (INTERVAL c) iso)] ++ t in
      match mapM remap (allCandles st) with
      | None => Some (t, Rejects)
      | Some candles =>
          match saveCandlesToFile writeFileSync candles Dirname OUTPUT_FILE with
          | (w, Returns) => Some (t ++ w ++ [ConsoleLog MsgCompleted], Returns)
          | (w, Rejects) => Some (t ++ w, Rejects)
          end
      end
  end.


End Script.

End Legacy.

(** *** Relating the two loops *)

(** The locals of the two loops agree. *)
Definition agree (st : locals) (lst : Legacy.locals) : Prop :=
  map candle (allCandles st) = Legacy.allCandles lst /\
  startTime st = Legacy.startTime lst /\
  fetchMore st = Legacy.fetchMore lst.

(** Every accumulated candle came out of [mapCandle]. *)
Definition mapped (candles : list CandleWithISO) : Prop :=
  Forall (fun c => exists r, mapCandle r = Some c) candles.

(** ** A concrete runtime for running the program on examples

    The theorems below hold for every date parser, number parser and
    datetime test.  To run the program on concrete inputs, this module
    gives the three on the strings the examples use: date-times of the form
    YYYY-MM-DDTHH:MM:SSZ that name an existing calendar date, and unsigned
    decimal integers. *)

Module Sample.

Definition digit (a : ascii) : option Z :=
  let n := Z.of_nat (nat_of_ascii a) in
  if (48 <=? n) && (n <=? 57) then Some (n - 48) else None.

Fixpoint digits (acc : Z) (l : list ascii) : option Z :=
  match l with
  | [] => Some acc
  | a :: l' => d ← digit a; digits (10 * acc + d) l'
  end.

Definition days_from_civil (y m d : Z) : Z :=
  let y' := if m <=? 2 then y - 1 else y in
  let era := y' / 400 in
  let yoe := y' - era * 400 in
  let doy := (153 * (if 2 <? m then m - 3 else m + 9) + 2) / 5 + d - 1 in
  let doe := yoe * 365 + yoe / 4 - yoe / 100 + doy in
  era * 146097 + doe - 719468.

Definition leap (y : Z) : bool :=
  ((y mod 4 =? 0) && negb (y mod 100 =? 0)) || (y mod 400 =? 0).

Definition days_in_month (y m : Z) : Z :=
  if m =? 2 then (if leap y then 29 else 28)
  else if (m =? 4) || (m =? 6) || (m =? 9) || (m =? 11) then 30
  else 31.

Definition Date_getTime (s : string) : number :=
  match list_ascii_of_string s with
  | [y1; y2; y3; y4; sep1; m1; m2; sep2; d1; d2; sepT;
     h1; h2; sep3; n1; n2; sep4; s1; s2; zulu] =>
      match digits 0 [y1; y2; y3; y4], digits 0 [m1; m2], digits 0 [d1; d2],
            digits 0 [h1; h2], digits 0 [n1; n2], digits 0 [s1; s2] with
      | Some y, Some m, Some d, Some hh, Some mm, Some ss =>
          if (String.eqb (string_of_list_ascii [sep1; sep2; sepT; sep3; sep4; zulu])
                "--T::Z")
             && (1 <=? m) && (m <=? 12) && (1 <=? d)
             && (d <=? days_in_month y m)
             && (hh <=? 23) && (mm <=? 59) && (ss <=? 59)
          then Num (days_from_civil y m d * msPerDay
                    + hh * 3600000 + mm * 60000 + ss * 1000)
          else NaN
      | _, _, _, _, _, _ => NaN
      end
  | _ => NaN
  end.

Definition datetime (s : string) : bool :=
  match Date_getTime s with
  | Num _ => true
  | NaN => false
  end.

Definition Number_ (s : string) : coerced :=
  match list_ascii_of_string s with
  | [] => Integer 0
  | l => match digits 0 l with
         | Some z => Integer z
         | None => NotANumber
         end
  end.

(** The environment of the README. *)
Definition readme_env : gmap string string :=
  <["SYMBOL" := "BTCUSDT"]> (<["INTERVAL" := "1m"]> (<["LIMIT" := "500"]>
  (<["REQ_DELAY_MS" := "150"]> (<["START_DATE" := "2024-01-01T00:00:00Z"]>
  (<["OUTPUT_FILE" := "BTCUSDT_1m.csv"]> ∅))))).

Definition readme : Env :=
  {| SYMBOL := "BTCUSDT"; INTERVAL := "1m"; LIMIT := 500;
     REQ_DELAY_MS := 150; START_DATE := "2024-01-01T00:00:00Z";
     OUTPUT_FILE := "BTCUSDT_1m.csv" |}.

(** A server that answers the first requests with the given responses
    and every later one with an empty page. *)
Definition scripted (rs : list response) : nat -> Params.t -> response :=
  fun n _ => default (Data []) (rs !! n).

Definition kline (o : Z) (c : Z) : raw :=
  {| raw0 := o; raw1 := "1"; raw2 := "2"; raw3 := "0.5"; raw4 := "1.5";
     raw5 := "10"; raw6 := c |}.

(** A server with two one-minute candles starting at the requested
    cursor, one per page. *)
Definition minutes (n : nat) (p : Params.t) : response :=
  match Params.startTime p with
  | Num c => if (n <? 2)%nat then Data [kline c (c + 59999)] else Data []
  | NaN => Data []
  end.

(** A server whose first page is one candle that closes at the last
    instant a [Date] can hold, and whose second page is one more candle. *)
Definition last_instant : nat -> Params.t -> response :=
  scripted [Data [kline (MAX_TIME - 59999) MAX_TIME];
            Data [kline 0 59999]].

(** The README environment with other values of single settings. *)
Definition zero_delay_env : gmap string string :=
  <["REQ_DELAY_MS" := "0"]> readme_env.

Definition bad_date_env : gmap string string :=
  <["START_DATE" := "yesterday"]> readme_env.

(** The README configuration with one candle per page. *)
Definition one_per_page : Env :=
  {| SYMBOL := "BTCUSDT"; INTERVAL := "1m"; LIMIT := 1;
     REQ_DELAY_MS := 150; START_DATE := "2024-01-01T00:00:00Z";
     OUTPUT_FILE := "BTCUSDT_1m.csv" |}.

End Sample.

(** ** Further observations and example servers *)

(** The number of times the character [a] occurs in [s]. *)
Fixpoint occurrences (a : ascii) (s : string) : nat :=
  match s with
  | EmptyString => O
  | String b s' => ((if Ascii.eqb a b then 1 else 0) + occurrences a s')%nat
  end.

(** The characters [toISOString] and the decimal form of an integer are
    made of. *)
Definition generated_characters : string := "0123456789-+:.TZ".

(** A string with neither a comma nor a line feed. *)
Definition plain (s : string) : Prop :=
  occurrences "," s = 0%nat /\ occurrences (ascii_of_nat 10) s = 0%nat.

(** A candle whose prices and volume are plain strings. *)
Definition plain_fields (c : CandleWithISO) : Prop :=
  plain (open c) /\ plain (high c) /\ plain (low c) /\ plain (close c) /\
  plain (volume c).

(** What every request of a run has in common with the configuration. *)
Definition configured (env : Env) (p : Params.t) : Prop :=
  Params.symbol p = SYMBOL env /\
  Params.interval p = INTERVAL env /\
  Params.limit p = LIMIT env.

(** *** The file, in the words of the specification

    Section 6 of the specification: the first line is the literal header,
    followed by one comma-joined row per candle in accumulation order,
    with the fields in the order of the header. *)

Definition spec_header : string :=
  "openTime,open,high,low,close,volume,closeTime,openISO,closeISO".

Definition spec_row (c : CandleWithISO) : string :=
  join "," [Number_toString (openTime c); open c; high c; low c; close c;
            volume c; Number_toString (closeTime c); openISO c; closeISO c].

Definition spec_file (candles : list CandleWithISO) : string :=
  spec_header +:+ nl +:+ join nl (map spec_row candles).

(** The blocks a trace of the loop is made of: a request followed by the
    delay. *)
Definition paced (ms : Z) (ps : list Params.t) : trace :=
  flat_map (fun p => [HttpGet p; Delay ms]) ps.

Module Scenario.

(** An engine that passes up to 65536 arguments, a file system that takes
    every write and one that takes none, and the [.int()] test of a zod
    that refuses integers beyond the safe range. *)
Definition max_arguments : positive := 65536.

Definition disk : directory -> string -> string -> bool :=
  fun _ _ _ => true.


Definition zod_int (z : Z) : bool := Z.abs z <=? 9007199254740991.

(** An engine that passes one argument only. *)
Definition one_argument : positive := 1.

(** A server whose only page is a candle that opens after the last
    instant a [Date] can hold. *)
Definition beyond : nat -> Params.t -> response :=
  Sample.scripted [Data [Sample.kline (MAX_TIME + 1) (MAX_TIME + 1)]].

(** A server whose first page has two candles. *)
Definition pair : nat -> Params.t -> response :=
  Sample.scripted [Data [Sample.kline 1000 1299; Sample.kline 1300 1599]].

(** A server that ignores the cursor and answers every request with the
    same one-candle page. *)
Definition stale : nat -> Params.t -> response :=
  fun _ _ => Data [Sample.kline 0 59999].

End Scenario.

(** * Properties *)

(** ** One iteration of the loop *)

Section Iteration.

Variable upstream : nat -> Params.t -> response.
Variable env : Env.
Variable max_arguments : positive.
Variable writeFileSync : directory -> string -> string -> bool.

(** Split a goal about [body] into the ways an iteration can go. *)
Ltac body_cases n st :=
  unfold body;
  destruct (upstream n (request env st)) as [|rawCandles];
  [ | destruct (length rawCandles =? 0)%nat;
      [ | destruct (mapM mapCandle rawCandles) as [candles|];
          [ destruct (Z.pos max_arguments <? Z.of_nat (length candles));
            [ | destruct (last candles) ] | ] ] ].

Lemma body_requests n st :
  requests (body upstream env max_arguments n st).1.1 = [request env st].
Proof. body_cases n st; reflexivity. Qed.

Lemma body_written n st : written (body upstream env max_arguments n st).1.1 = [].
Proof. body_cases n st; reflexivity. Qed.

Lemma body_Break n st evs st' :
  body upstream env max_arguments n st = (evs, st', Break) ->
  upstream n (request env st) = Data [] /\ st' = st /\
  evs = [HttpGet (request env st)].
Proof.
  unfold body.
  destruct (upstream n (request env st)) as [|rawCandles]; [discriminate|].
  destruct rawCandles as [|r rs]; cbn [length Nat.eqb].
  - intros H. inversion H. auto.
  - destruct (mapM mapCandle (r :: rs)) as [candles|]; [|discriminate].
    destruct (Z.pos max_arguments <? Z.of_nat (length candles));
      [discriminate|].
    destruct (last candles); discriminate.
Qed.

Lemma body_Throw n st :
  upstream n (request env st) = Throw ->
  body upstream env max_arguments n st =
    ([HttpGet (request env st); ConsoleError MsgErrorFetching],
     caught st, Next).
Proof. intros H. unfold body. now rewrite H. Qed.

Lemma body_empty n st :
  upstream n (request env st) = Data [] ->
  body upstream env max_arguments n st = ([HttpGet (request env st)], st, Break).
Proof. intros H. unfold body. now rewrite H. Qed.

Lemma mapM_mapCandle_last rawCandles candles :
  mapM mapCandle rawCandles = Some candles ->
  rawCandles <> [] ->
  exists c r, last candles = Some c /\ last rawCandles = Some r /\
              mapCandle r = Some c.
Proof.
  intros Hmap Hne. apply mapM_Some in Hmap.
  apply Forall2_last in Hmap.
  destruct (last rawCandles) as [r|] eqn:Hr.
  - inversion Hmap; subst. eauto.
  - apply last_None in Hr. contradiction.
Qed.

Lemma body_mapped n st rawCandles candles :
  upstream n (request env st) = Data rawCandles ->
  rawCandles <> [] ->
  mapM mapCandle rawCandles = Some candles ->
  Z.of_nat (length candles) <= Z.pos max_arguments ->
  exists c,
    last candles = Some c /\
    body upstream env max_arguments n st =
      ([HttpGet (request env st); Delay (REQ_DELAY_MS env)],
       {| allCandles := allCandles st ++ candles;
          startTime := Num (closeTime c + 1);
          fetchMore := if Z.of_nat (length candles) <? LIMIT env then false
                       else fetchMore st |},
       Next).
Proof.
  intros Hup Hne Hmap Hfit.
  destruct (mapM_mapCandle_last _ _ Hmap Hne) as (c & r & Hc & _ & _).
  exists c. split; [exact Hc|].
  unfold body. rewrite Hup.
  destruct rawCandles as [|r0 rs]; [contradiction|]. cbn [length Nat.eqb].
  apply Z.ltb_ge in Hfit. rewrite Hmap, Hfit, Hc. reflexivity.
Qed.

(** A mapped page with more candles than one call takes arguments: the
    spread call of [push] throws, nothing is appended, and the cursor
    stays. *)
Lemma body_too_long n st rawCandles candles :
  upstream n (request env st) = Data rawCandles ->
  rawCandles <> [] ->
  mapM mapCandle rawCandles = Some candles ->
  Z.pos max_arguments < Z.of_nat (length candles) ->
  body upstream env max_arguments n st =
    ([HttpGet (request env st); ConsoleError MsgErrorFetching],
     caught st, Next).
Proof.
  intros Hup Hne Hmap Hlong. unfold body. rewrite Hup.
  destruct rawCandles as [|r0 rs]; [contradiction|]. cbn [length Nat.eqb].
  apply Z.ltb_lt in Hlong. rewrite Hmap, Hlong. reflexivity.
Qed.

Lemma body_unmapped n st rawCandles :
  upstream n (request env st) = Data rawCandles ->
  rawCandles <> [] ->
  mapM mapCandle rawCandles = None ->
  body upstream env max_arguments n st =
    ([HttpGet (request env st); ConsoleError MsgErrorFetching],
     caught st, Next).
Proof.
  intros Hup Hne Hmap. unfold body. rewrite Hup.
  destruct rawCandles as [|r0 rs]; [contradiction|]. cbn [length Nat.eqb].
  rewrite Hmap. reflexivity.
Qed.

(** The ways an iteration can go. *)
Lemma body_case n st :
  (upstream n (request env st) = Throw \/
   (exists rawCandles,
      upstream n (request env st) = Data rawCandles /\ rawCandles <> [] /\
      (mapM mapCandle rawCandles = None \/
       exists candles,
         mapM mapCandle rawCandles = Some candles /\
         Z.pos max_arguments < Z.of_nat (length candles)))) /\
  body upstream env max_arguments n st =
    ([HttpGet (request env st); ConsoleError MsgErrorFetching],
     caught st, Next)
  \/
  upstream n (request env st) = Data [] /\
  body upstream env max_arguments n st = ([HttpGet (request env st)], st, Break)
  \/
  exists rawCandles candles c,
    upstream n (request env st) = Data rawCandles /\ rawCandles <> [] /\
    mapM mapCandle rawCandles = Some candles /\
    Z.of_nat (length candles) <= Z.pos max_arguments /\
    last candles = Some c /\
    body upstream env max_arguments n st =
      ([HttpGet (request env st); Delay (REQ_DELAY_MS env)],
       {| allCandles := allCandles st ++ candles;
          startTime := Num (closeTime c + 1);
          fetchMore := if Z.of_nat (length candles) <? LIMIT env then false
                       else fetchMore st |},
       Next).
Proof.
  destruct (upstream n (request env st)) as [|rawCandles] eqn:Hup.
  { left. split; [auto|]. now apply body_Throw. }
  destruct rawCandles as [|r rs].
  { right. left. split; [reflexivity|]. now apply body_empty. }
  assert (Hne : r :: rs <> []) by discriminate.
  destruct (mapM mapCandle (r :: rs)) as [candles|] eqn:Hmap.
  - destruct (Z_lt_le_dec (Z.pos max_arguments) (Z.of_nat (length candles)))
      as [Hlong|Hfit].
    + left. split; [right; exists (r :: rs); eauto 6|].
      eapply body_too_long; eauto.
    + right. right.
      destruct (body_mapped n st _ _ Hup Hne Hmap Hfit) as (c & Hc & Hb).
      exists (r :: rs), candles, c. auto 8.
  - left. split; [right; exists (r :: rs); auto|].
    eapply body_unmapped; eauto.
Qed.

End Iteration.

(** ** The loop as a sequence of iterations *)

Section Run.

Variable Date_getTime : string -> number.
Variable upstream : nat -> Params.t -> response.
Variable env : Env.
Variable max_arguments : positive.
Variable writeFileSync : directory -> string -> string -> bool.

Lemma advance_Some n st st' :
  advance upstream env max_arguments n st = Some st' ->
  fetchMore st' = true /\
  exists evs, body upstream env max_arguments n st = (evs, st', Next).
Proof.
  unfold advance. destruct (body upstream env max_arguments n st) as [[evs s] fl].
  destruct fl; [|discriminate].
  destruct (fetchMore s) eqn:E; [|discriminate].
  intros H. inversion H; subst. eauto.
Qed.

Lemma advance_None n st :
  advance upstream env max_arguments n st = None ->
  (body upstream env max_arguments n st).2 = Break \/
  fetchMore (body upstream env max_arguments n st).1.2 = false.
Proof.
  unfold advance. destruct (body upstream env max_arguments n st) as [[evs s] fl]; simpl.
  destruct fl; [|auto]. destruct (fetchMore s); [discriminate|auto].
Qed.

Lemma entry_from_fetchMore k : forall n st st_k,
  fetchMore st = true ->
  entry_from upstream env max_arguments n st k = Some st_k ->
  fetchMore st_k = true.
Proof.
  induction k as [|k IH]; simpl; intros n st st_k Hst H.
  - inversion H; subst. exact Hst.
  - destruct (advance upstream env max_arguments n st) as [st'|] eqn:Ha; [|discriminate].
    apply advance_Some in Ha as [Hm _]. eapply IH; eauto.
Qed.

Lemma entry_from_S_r k : forall n st,
  entry_from upstream env max_arguments n st (S k) =
  entry_from upstream env max_arguments n st k ≫= advance upstream env max_arguments (n + k).
Proof.
  induction k as [|k IH]; intros n st.
  - simpl. rewrite Nat.add_0_r.
    destruct (advance upstream env max_arguments n st); reflexivity.
  - change (entry_from upstream env max_arguments n st (S (S k)))
      with (advance upstream env max_arguments n st ≫=
            fun st' => entry_from upstream env max_arguments (S n) st' (S k)).
    change (entry_from upstream env max_arguments n st (S k))
      with (advance upstream env max_arguments n st ≫=
            fun st' => entry_from upstream env max_arguments (S n) st' k).
    destruct (advance upstream env max_arguments n st) as [st'|]; [|reflexivity].
    change (entry_from upstream env max_arguments (S n) st' (S k) =
            entry_from upstream env max_arguments (S n) st' k
              ≫= advance upstream env max_arguments (n + S k)).
    rewrite Nat.add_succ_r. apply (IH (S n) st').
Qed.

Lemma entry_S k :
  entry Date_getTime upstream env max_arguments (S k) =
  entry Date_getTime upstream env max_arguments k ≫= advance upstream env max_arguments k.
Proof. apply (entry_from_S_r k 0%nat). Qed.

Lemma entry_fetchMore k st :
  entry Date_getTime upstream env max_arguments k = Some st -> fetchMore st = true.
Proof. apply entry_from_fetchMore. reflexivity. Qed.

(** The loop leaves after the iteration that does not advance. *)
Lemma while_stop fuel n st :
  fetchMore st = true ->
  advance upstream env max_arguments n st = None ->
  while upstream env max_arguments (S fuel) n st =
    Some ((body upstream env max_arguments n st).1.1, (body upstream env max_arguments n st).1.2).
Proof.
  intros Hm Ha. apply advance_None in Ha. simpl. rewrite Hm.
  destruct (body upstream env max_arguments n st) as [[evs s] fl]; simpl in *.
  destruct fl.
  - destruct Ha as [Ha|Ha]; [discriminate|].
    destruct fuel; simpl; rewrite Ha; simpl; now rewrite app_nil_r.
  - reflexivity.
Qed.

Lemma while_go fuel n st st' :
  fetchMore st = true ->
  advance upstream env max_arguments n st = Some st' ->
  while upstream env max_arguments (S fuel) n st =
    '(t, st'') ← while upstream env max_arguments fuel (S n) st';
    Some ((body upstream env max_arguments n st).1.1 ++ t, st'').
Proof.
  intros Hm Ha. apply advance_Some in Ha as [_ [evs Hb]].
  simpl. rewrite Hm, Hb. reflexivity.
Qed.

(** Enough fuel: if request number [n + k] is reached and the loop does
    not advance past it, the loop returns once [fuel] exceeds [k]. *)
Lemma while_reaches k : forall n st st_k fuel,
  fetchMore st = true ->
  entry_from upstream env max_arguments n st k = Some st_k ->
  advance upstream env max_arguments (n + k) st_k = None ->
  (k < fuel)%nat ->
  exists pre,
    while upstream env max_arguments fuel n st =
      Some (pre ++ (body upstream env max_arguments (n + k) st_k).1.1,
            (body upstream env max_arguments (n + k) st_k).1.2) /\
    length (requests pre) = k /\ written pre = [].
Proof.
  induction k as [|k IH]; intros n st st_k fuel Hm He Ha Hlt.
  - simpl in He. inversion He; subst st_k. rewrite Nat.add_0_r in *.
    destruct fuel as [|fuel]; [lia|].
    exists []. rewrite while_stop by assumption. auto.
  - simpl in He.
    destruct (advance upstream env max_arguments n st) as [st'|] eqn:Hadv; [|discriminate].
    simpl in He. destruct fuel as [|fuel]; [lia|].
    rewrite (while_go _ _ _ _ Hm Hadv).
    pose proof (advance_Some _ _ _ Hadv) as [Hm' _].
    rewrite Nat.add_succ_r in *.
    destruct (IH (S n) st' st_k fuel Hm' He Ha ltac:(lia))
      as (pre & -> & Hlen & Hw).
    exists ((body upstream env max_arguments n st).1.1 ++ pre). simpl.
    rewrite <- app_assoc. split; [reflexivity|].
    unfold requests, written in *. rewrite !omap_app.
    fold (requests (body upstream env max_arguments n st).1.1).
    fold (written (body upstream env max_arguments n st).1.1).
    rewrite body_requests, body_written, length_app, Hlen, Hw. auto.
Qed.

(** Conversely, a loop that returns has left after some iteration. *)
Lemma while_exit fuel : forall n st t stf,
  fetchMore st = true ->
  while upstream env max_arguments fuel n st = Some (t, stf) ->
  exists k st_k,
    entry_from upstream env max_arguments n st k = Some st_k /\
    advance upstream env max_arguments (n + k) st_k = None /\
    stf = (body upstream env max_arguments (n + k) st_k).1.2.
Proof.
  induction fuel as [|fuel IH]; intros n st t stf Hm H.
  - simpl in H. rewrite Hm in H. discriminate.
  - destruct (advance upstream env max_arguments n st) as [st'|] eqn:Hadv.
    + rewrite (while_go _ _ _ _ Hm Hadv) in H.
      destruct (while upstream env max_arguments fuel (S n) st') as [[t' s']|] eqn:Hw;
        [|discriminate].
      simpl in H. inversion H; subst.
      pose proof (advance_Some _ _ _ Hadv) as [Hm' _].
      destruct (IH _ _ _ _ Hm' Hw) as (k & st_k & He & Ha & ->).
      exists (S k), st_k. simpl. rewrite Hadv. simpl.
      rewrite Nat.add_succ_r. auto.
    + rewrite (while_stop _ _ _ Hm Hadv) in H. inversion H; subst.
      exists 0%nat, st. rewrite Nat.add_0_r. auto.
Qed.

(** The only way to enter another iteration: a non-empty page was
    mapped and appended, it was not shorter than [LIMIT], and the cursor
    moved past its last candle. *)
Lemma advance_inv n st st' :
  advance upstream env max_arguments n st = Some st' ->
  exists rawCandles candles c,
    upstream n (request env st) = Data rawCandles /\
    rawCandles <> [] /\
    mapM mapCandle rawCandles = Some candles /\
    last candles = Some c /\
    LIMIT env <= Z.of_nat (length candles) /\
    st' = {| allCandles := allCandles st ++ candles;
             startTime := Num (closeTime c + 1);
             fetchMore := true |}.
Proof.
  intros Ha. apply advance_Some in Ha as [Hm [evs Hb]].
  destruct (body_case upstream env max_arguments n st)
    as [[_ Hc] | [[_ Hc] | (raws & candles & c & Hup & Hne & Hmap & _ & Hlast & Hc)]];
    rewrite Hc in Hb; inversion Hb; subst; clear Hb; simpl in Hm;
    try discriminate.
  exists raws, candles, c.
  destruct (Z.of_nat (length candles) <? LIMIT env) eqn:Hlt; [discriminate|].
  apply Z.ltb_ge in Hlt. rewrite Hm. auto 8.
Qed.

(** A page that lets the loop go on was short enough for the spread call
    of [push]. *)
Lemma advance_fits n st st' rawCandles candles :
  advance upstream env max_arguments n st = Some st' ->
  upstream n (request env st) = Data rawCandles ->
  mapM mapCandle rawCandles = Some candles ->
  Z.of_nat (length candles) <= Z.pos max_arguments.
Proof.
  intros Ha Hup Hmap. apply advance_Some in Ha as [Hm [evs Hb]].
  destruct (body_case upstream env max_arguments n st)
    as [[_ Hc] | [[_ Hc] | (raws & cs & c & Hup' & _ & Hmap' & Hfit & _ & Hc)]];
    rewrite Hc in Hb; inversion Hb; subst; clear Hb; simpl in Hm;
    try discriminate.
  rewrite Hup in Hup'. inversion Hup'; subst raws.
  rewrite Hmap in Hmap'. now inversion Hmap'; subst.
Qed.

Lemma pages_before_S k :
  pages_before Date_getTime upstream env max_arguments (S k) =
  pages_before Date_getTime upstream env max_arguments k ++ page Date_getTime upstream env max_arguments k.
Proof.
  unfold pages_before. rewrite seq_S, map_app, concat_app. simpl.
  now rewrite app_nil_r.
Qed.

(** On entering iteration [k], the accumulated candles are those of the
    pages answering requests 0 .. k-1. *)
Lemma entry_allCandles k : forall st,
  entry Date_getTime upstream env max_arguments k = Some st ->
  allCandles st = pages_before Date_getTime upstream env max_arguments k.
Proof.
  induction k as [|k IH]; intros st He.
  - inversion He; subst. reflexivity.
  - rewrite entry_S in He.
    destruct (entry Date_getTime upstream env max_arguments k) as [st_k|] eqn:Hk;
      [|discriminate].
    simpl in He.
    destruct (advance_inv _ _ _ He) as (raws & candles & c & Hr & _ & Hmap & _ & _ & ->).
    simpl. rewrite (IH st_k eq_refl), pages_before_S. f_equal.
    unfold page, response_at. rewrite Hk. simpl. rewrite Hr, Hmap.
    reflexivity.
Qed.

(** The file the service writes is the file of the specification. *)
Lemma csv_spec_file candles : csv candles = spec_file candles.
Proof. reflexivity. Qed.

(** The run ends with the iteration that does not advance: from then on
    every amount of fuel gives the same finished trace, with one request
    per iteration and a single call of [fs.writeFileSync], with what was
    accumulated. *)
Lemma fetchCandles_stops k st fuel :
  entry Date_getTime upstream env max_arguments k = Some st ->
  advance upstream env max_arguments k st = None ->
  (k < fuel)%nat ->
  exists t,
    events (fetchCandles Date_getTime upstream env max_arguments
              writeFileSync fuel) = Some t /\
    length (requests t) = S k /\
    written t =
      [spec_file (allCandles (body upstream env max_arguments k st).1.2)].
Proof.
  intros He Ha Hlt.
  destruct (while_reaches k 0%nat (initial Date_getTime env) st fuel
              eq_refl He Ha Hlt)
    as (pre & Hw & Hlen & Hwr).
  unfold fetchCandles, events. fold (initial Date_getTime env).
  rewrite Hw. simpl. unfold saveCandlesToFile.
  rewrite csv_spec_file.
  destruct (writeFileSync Cwd (OUTPUT_FILE env) _); simpl;
    (eexists; split; [reflexivity|]);
    unfold requests, written in *; simpl; rewrite !omap_app;
    fold (requests (body upstream env max_arguments k st).1.1);
    fold (written (body upstream env max_arguments k st).1.1);
    rewrite body_requests, body_written, Hwr; simpl;
    rewrite !length_app, Hlen; simpl; (split; [lia|reflexivity]).
Qed.

End Run.

(** ** The fetch loop of the service *)

Section Pagination.

Variable Date_getTime : string -> number.
Variable upstream : nat -> Params.t -> response.
Variable env : Env.
Variable max_arguments : positive.
Variable writeFileSync : directory -> string -> string -> bool.

(** C1. After an iteration that receives a non-empty page, maps it and
    appends it, the cursor is the close time of the last candle mapped
    from that page plus 1; and whenever a next request is sent after a
    non-empty page, it carries the close time of the last candle mapped
    from that page plus 1 as its [startTime]. *)
Theorem cursor_follows_last_closeTime k st rawCandles :
  entry Date_getTime upstream env max_arguments k = Some st ->
  upstream k (request env st) = Data rawCandles ->
  rawCandles <> [] ->
  (forall candles : list CandleWithISO,
     mapM mapCandle rawCandles = Some candles ->
     Z.of_nat (length candles) <= Z.pos max_arguments ->
     exists c : CandleWithISO,
       last candles = Some c /\
       startTime (body upstream env max_arguments k st).1.2 =
         Num (closeTime c + 1)) /\
  (forall st',
     entry Date_getTime upstream env max_arguments (S k) = Some st' ->
     exists (candles : list CandleWithISO) (c : CandleWithISO),
       mapM mapCandle rawCandles = Some candles /\
       last candles = Some c /\
       requests (body upstream env max_arguments (S k) st').1.1 =
         [{| Params.symbol := SYMBOL env; Params.interval := INTERVAL env;
             Params.startTime := Num (closeTime c + 1);
             Params.limit := LIMIT env |}]).
Proof.
  intros He Hup Hne. split.
  - intros candles Hmap Hfit.
    destruct (body_mapped upstream env max_arguments k st _ _ Hup Hne Hmap Hfit)
      as (c & Hc & ->).
    eauto.
  - intros st' He'. rewrite entry_S, He in He'. simpl in He'.
    destruct (advance_inv _ _ _ _ _ _ He')
      as (raws & candles & c & Hr & _ & Hmap & Hc & _ & ->).
    rewrite Hup in Hr. inversion Hr; subst raws.
    exists candles, c. rewrite body_requests. auto.
Qed.

(** C2, as the code has it.  A page shorter than [LIMIT] whose records
    all map and which is short enough for the spread call of [push] ends
    the run: its candles are mapped and appended, no further request is
    sent, and the file holds the earlier pages followed by this one.  The
    test compares the length of the page with the requested limit: such a
    page with at least [LIMIT] records, when it is not empty, never ends
    the loop, whatever has been accumulated. *)
Theorem short_page_ends_the_run k rawCandles candles :
  response_at Date_getTime upstream env max_arguments k =
    Some (Data rawCandles) ->
  mapM mapCandle rawCandles = Some candles ->
  Z.of_nat (length candles) <= Z.pos max_arguments ->
  (Z.of_nat (length rawCandles) < LIMIT env ->
   forall fuel, (k < fuel)%nat ->
     exists t,
       events (fetchCandles Date_getTime upstream env max_arguments
                 writeFileSync fuel) = Some t /\
       length (requests t) = S k /\
       written t =
         [spec_file (pages_before Date_getTime upstream env max_arguments k
                     ++ candles)]) /\
  (rawCandles <> [] ->
   LIMIT env <= Z.of_nat (length rawCandles) ->
   exists st',
     entry Date_getTime upstream env max_arguments (S k) = Some st' /\
     allCandles st' =
       pages_before Date_getTime upstream env max_arguments k ++ candles).
Proof.
  unfold response_at. intros Hr Hmap Hfit.
  destruct (entry Date_getTime upstream env max_arguments k) as [st|] eqn:He;
    [|discriminate].
  simpl in Hr. inversion Hr as [Hup]; clear Hr.
  pose proof (entry_fetchMore _ _ _ _ _ _ He) as Hm.
  pose proof (entry_allCandles _ _ _ _ _ _ He) as Hall.
  pose proof (length_mapM _ _ _ Hmap) as Hlen.
  split.
  - intros Hshort fuel Hlt.
    destruct rawCandles as [|r rs].
    + inversion Hmap; subst candles.
      pose proof (body_empty upstream env max_arguments k st Hup) as Hb.
      assert (Ha : advance upstream env max_arguments k st = None)
        by (unfold advance; now rewrite Hb).
      destruct (fetchCandles_stops Date_getTime _ _ _ writeFileSync _ _
                  fuel He Ha Hlt) as (t & Ht & Hreq & Hw).
      exists t. rewrite Hb in Hw. simpl in Hw.
      rewrite app_nil_r, <- Hall. auto.
    + destruct (body_mapped upstream env max_arguments k st _ _ Hup
                  ltac:(discriminate) Hmap Hfit) as (c & Hc & Hb).
      assert (Hf : (Z.of_nat (length candles) <? LIMIT env) = true)
        by (apply Z.ltb_lt; rewrite <- Hlen; exact Hshort).
      rewrite Hf in Hb.
      assert (Ha : advance upstream env max_arguments k st = None)
        by (unfold advance; now rewrite Hb).
      destruct (fetchCandles_stops Date_getTime _ _ _ writeFileSync _ _
                  fuel He Ha Hlt) as (t & Ht & Hreq & Hw).
      exists t. rewrite Hb in Hw. simpl in Hw. rewrite <- Hall. auto.
  - intros Hne Hfull.
    destruct (body_mapped upstream env max_arguments k st _ _ Hup Hne Hmap Hfit)
      as (c & Hc & Hb).
    assert (Hf : (Z.of_nat (length candles) <? LIMIT env) = false)
      by (apply Z.ltb_ge; rewrite <- Hlen; exact Hfull).
    rewrite Hf, Hm in Hb.
    eexists. rewrite entry_S, He. simpl. unfold advance. rewrite Hb. simpl.
    split; [reflexivity|]. simpl. now rewrite Hall.
Qed.

(** Every page before a request that is sent was a non-empty page of at
    least [LIMIT] records, all of which were mapped and appended. *)
Lemma page_before_request k st' :
  entry Date_getTime upstream env max_arguments (S k) = Some st' ->
  exists rawCandles,
    response_at Date_getTime upstream env max_arguments k =
      Some (Data rawCandles) /\
    mapM mapCandle rawCandles =
      Some (page Date_getTime upstream env max_arguments k) /\
    rawCandles <> [] /\
    LIMIT env <= Z.of_nat (length rawCandles).
Proof.
  intros He. rewrite entry_S in He.
  destruct (entry Date_getTime upstream env max_arguments k) as [st_k|] eqn:Hk;
    [|discriminate].
  simpl in He.
  destruct (advance_inv _ _ _ _ _ _ He)
    as (raws & candles & c & Hr & Hne & Hmap & _ & Hlim & _).
  exists raws. unfold page, response_at. rewrite Hk. simpl.
  rewrite Hr, Hmap. rewrite (length_mapM _ _ _ Hmap). auto.
Qed.

Lemma entry_earlier k st :
  entry Date_getTime upstream env max_arguments k = Some st ->
  forall i, (i < k)%nat ->
    is_Some (entry Date_getTime upstream env max_arguments (S i)).
Proof.
  revert st. induction k as [|k IH]; intros st He i Hi; [lia|].
  destruct (Nat.eq_dec i k) as [->|Hne]; [eauto|].
  rewrite entry_S in He.
  destruct (entry Date_getTime upstream env max_arguments k) as [st_k|] eqn:Hk;
    [|discriminate].
  apply (IH st_k eq_refl). lia.
Qed.

(** The pages answering the requests before request number [k]: each is a
    page whose records were all mapped, and [page] is their candles. *)
Lemma earlier_pages_were_mapped k st :
  entry Date_getTime upstream env max_arguments k = Some st ->
  forall i, (i < k)%nat ->
    exists rawCandles,
      response_at Date_getTime upstream env max_arguments i =
        Some (Data rawCandles) /\
      mapM mapCandle rawCandles =
        Some (page Date_getTime upstream env max_arguments i).
Proof.
  intros He i Hi. destruct (entry_earlier k st He i Hi) as [st' He'].
  destruct (page_before_request i st' He') as (raws & Hr & Hmap & _).
  eauto.
Qed.

(** C3. When request number [k] (counted from 0) fails, the run ends
    without another request, [fs.writeFileSync] is still called, once, and
    what it is given is the header line followed by one row, with its
    nine fields, for every candle of every earlier page, in order; every
    record of those pages was mapped.  It is the header line alone when
    the first request fails. *)
Theorem failed_request_keeps_earlier_pages k :
  response_at Date_getTime upstream env max_arguments k = Some Throw ->
  (forall i, (i < k)%nat ->
     exists rawCandles,
       response_at Date_getTime upstream env max_arguments i =
         Some (Data rawCandles) /\
       mapM mapCandle rawCandles =
         Some (page Date_getTime upstream env max_arguments i)) /\
  forall fuel, (k < fuel)%nat ->
    exists t,
      events (fetchCandles Date_getTime upstream env max_arguments
                writeFileSync fuel) = Some t /\
      length (requests t) = S k /\
      written t =
        [spec_header +:+ nl +:+
         join nl
           (map (fun c : CandleWithISO =>
                   join ","
                     [Number_toString (openTime c); open c; high c; low c;
                      close c; volume c; Number_toString (closeTime c);
                      openISO c; closeISO c])
              (concat
                 (map (page Date_getTime upstream env max_arguments)
                    (seq 0 k))))] /\
      (k = 0%nat -> written t = [spec_header +:+ nl]).
Proof.
  unfold response_at. intros Hr.
  destruct (entry Date_getTime upstream env max_arguments k) as [st|] eqn:He;
    [|discriminate].
  split; [exact (earlier_pages_were_mapped k st He)|].
  intros fuel Hlt.
  simpl in Hr. inversion Hr as [Hup]; clear Hr.
  pose proof (body_Throw upstream env max_arguments k st Hup) as Hb.
  assert (Ha : advance upstream env max_arguments k st = None)
    by (unfold advance; now rewrite Hb).
  destruct (fetchCandles_stops Date_getTime _ _ _ writeFileSync _ _
              fuel He Ha Hlt) as (t & Ht & Hreq & Hw).
  exists t. rewrite Hb in Hw. simpl in Hw.
  rewrite (entry_allCandles _ _ _ _ _ _ He) in Hw.
  repeat split; auto. intros ->. exact Hw.
Qed.

(** C4. When the answer to request number [k] is an empty page, the
    iteration leaves the loop with the locals untouched, and what
    [fs.writeFileSync] is given is the header line followed by one row,
    with its nine fields, for every candle of every earlier page, in
    order (no row when there is no earlier page); every record of those
    pages was mapped. *)
Theorem empty_page_ends_the_run k :
  response_at Date_getTime upstream env max_arguments k = Some (Data []) ->
  (exists st,
     entry Date_getTime upstream env max_arguments k = Some st /\
     body upstream env max_arguments k st =
       ([HttpGet (request env st)], st, Break) /\
     allCandles st =
       concat (map (page Date_getTime upstream env max_arguments) (seq 0 k))) /\
  (forall i, (i < k)%nat ->
     exists rawCandles,
       response_at Date_getTime upstream env max_arguments i =
         Some (Data rawCandles) /\
       mapM mapCandle rawCandles =
         Some (page Date_getTime upstream env max_arguments i)) /\
  forall fuel, (k < fuel)%nat ->
    exists t,
      events (fetchCandles Date_getTime upstream env max_arguments
                writeFileSync fuel) = Some t /\
      length (requests t) = S k /\
      written t =
        [spec_header +:+ nl +:+
         join nl
           (map (fun c : CandleWithISO =>
                   join ","
                     [Number_toString (openTime c); open c; high c; low c;
                      close c; volume c; Number_toString (closeTime c);
                      openISO c; closeISO c])
              (concat
                 (map (page Date_getTime upstream env max_arguments)
                    (seq 0 k))))].
Proof.
  unfold response_at. intros Hr.
  destruct (entry Date_getTime upstream env max_arguments k) as [st|] eqn:He;
    [|discriminate].
  simpl in Hr. inversion Hr as [Hup]; clear Hr.
  pose proof (body_empty upstream env max_arguments k st Hup) as Hb.
  split; [exists st; repeat split; auto;
          exact (entry_allCandles _ _ _ _ _ _ He)|].
  split; [exact (earlier_pages_were_mapped k st He)|].
  intros fuel Hlt.
  assert (Ha : advance upstream env max_arguments k st = None)
    by (unfold advance; now rewrite Hb).
  destruct (fetchCandles_stops Date_getTime _ _ _ writeFileSync _ _
              fuel He Ha Hlt) as (t & Ht & Hreq & Hw).
  exists t. rewrite Hb in Hw. simpl in Hw.
  rewrite (entry_allCandles _ _ _ _ _ _ He) in Hw. auto.
Qed.

(** A page with a record whose open or close time is not a valid [Date]
    time value makes [mapCandle] throw inside the [try]: the iteration is
    a failed request, and nothing of the page is appended. *)
Lemma unmapped_page_is_a_failed_request k rawCandles :
  response_at Date_getTime upstream env max_arguments k =
    Some (Data rawCandles) ->
  rawCandles <> [] ->
  mapM mapCandle rawCandles = None ->
  forall fuel, (k < fuel)%nat ->
    exists t,
      events (fetchCandles Date_getTime upstream env max_arguments
                writeFileSync fuel) = Some t /\
      length (requests t) = S k /\
      written t =
        [spec_file (pages_before Date_getTime upstream env max_arguments k)].
Proof.
  unfold response_at. intros Hr Hne Hmap fuel Hlt.
  destruct (entry Date_getTime upstream env max_arguments k) as [st|] eqn:He;
    [|discriminate].
  simpl in Hr. inversion Hr as [Hup]; clear Hr.
  pose proof (body_unmapped upstream env max_arguments k st _ Hup Hne Hmap)
    as Hb.
  assert (Ha : advance upstream env max_arguments k st = None)
    by (unfold advance; now rewrite Hb).
  destruct (fetchCandles_stops Date_getTime _ _ _ writeFileSync _ _
              fuel He Ha Hlt) as (t & Ht & Hreq & Hw).
  exists t. rewrite Hb in Hw. simpl in Hw.
  rewrite (entry_allCandles _ _ _ _ _ _ He) in Hw. auto.
Qed.

(** So does a mapped page with more candles than one call takes
    arguments: the spread call of [push] throws, and the page is dropped
    whole. *)
Lemma long_page_is_a_failed_request k rawCandles candles :
  response_at Date_getTime upstream env max_arguments k =
    Some (Data rawCandles) ->
  mapM mapCandle rawCandles = Some candles ->
  Z.pos max_arguments < Z.of_nat (length candles) ->
  forall fuel, (k < fuel)%nat ->
    exists t,
      events (fetchCandles Date_getTime upstream env max_arguments
                writeFileSync fuel) = Some t /\
      length (requests t) = S k /\
      written t =
        [spec_file (pages_before Date_getTime upstream env max_arguments k)].
Proof.
  unfold response_at. intros Hr Hmap Hlong fuel Hlt.
  destruct (entry Date_getTime upstream env max_arguments k) as [st|] eqn:He;
    [|discriminate].
  simpl in Hr. inversion Hr as [Hup]; clear Hr.
  assert (Hne : rawCandles <> []).
  { intros ->. inversion Hmap; subst. simpl in Hlong. lia. }
  pose proof (body_too_long upstream env max_arguments k st _ _ Hup Hne
                Hmap Hlong) as Hb.
  assert (Ha : advance upstream env max_arguments k st = None)
    by (unfold advance; now rewrite Hb).
  destruct (fetchCandles_stops Date_getTime _ _ _ writeFileSync _ _
              fuel He Ha Hlt) as (t & Ht & Hreq & Hw).
  exists t. rewrite Hb in Hw. simpl in Hw.
  rewrite (entry_allCandles _ _ _ _ _ _ He) in Hw. auto.
Qed.

End Pagination.

(** ** The synthetic page, and the order of the accumulated candles *)

Section Ordering.

Variable Date_getTime : string -> number.
Variable upstream : nat -> Params.t -> response.
Variable env : Env.
Variable max_arguments : positive.
Variable writeFileSync : directory -> string -> string -> bool.

Lemma while_written fuel : forall n st t st',
  while upstream env max_arguments fuel n st = Some (t, st') -> written t = [].
Proof.
  induction fuel as [|fuel IH]; intros n st t st'; simpl.
  - destruct (fetchMore st); [discriminate|]. intros H. now inversion H.
  - destruct (fetchMore st); [|intros H; now inversion H].
    pose proof (body_written upstream env max_arguments n st) as Hb.
    destruct (body upstream env max_arguments n st) as [[evs s] fl]. simpl in Hb.
    destruct fl.
    + destruct (while upstream env max_arguments fuel (S n) s) as [[t' s']|] eqn:Hw;
        [|discriminate].
      simpl. intros H. inversion H; subst.
      unfold written in *. rewrite omap_app, Hb. simpl. eapply IH, Hw.
    + intros H. inversion H; subst. exact Hb.
Qed.

(** C5. The synthetic page [[1000,"1","2","0.5","1.5","10",1299]] with
    [LIMIT = 500]: the run ends after one request, by the short-page
    test, and writes the header line followed by the single row
    1000,1,2,0.5,1.5,10,1299,1970-01-01T00:00:01.000Z,1970-01-01T00:00:01.299Z. *)
Theorem synthetic_page_round_trip :
  LIMIT env = 500 ->
  (forall p,
     upstream 0%nat p =
       Data [{| raw0 := 1000; raw1 := "1"; raw2 := "2"; raw3 := "0.5";
                raw4 := "1.5"; raw5 := "10"; raw6 := 1299 |}]) ->
  forall fuel, (0 < fuel)%nat ->
    fetchMore (body upstream env max_arguments 0 (initial Date_getTime env)).1.2 = false /\
    exists t,
      events (fetchCandles Date_getTime upstream env max_arguments writeFileSync fuel) = Some t /\
      length (requests t) = 1%nat /\
      written t =
        ["openTime,open,high,low,close,volume,closeTime,openISO,closeISO"
         +:+ nl +:+
         "1000,1,2,0.5,1.5,10,1299,1970-01-01T00:00:01.000Z,1970-01-01T00:00:01.299Z"].
Proof.
  intros Hlimit Hup fuel Hfuel.
  set (st := initial Date_getTime env).
  assert (Hmap : mapM mapCandle
            [{| raw0 := 1000; raw1 := "1"; raw2 := "2"; raw3 := "0.5";
                raw4 := "1.5"; raw5 := "10"; raw6 := 1299 |}] =
          Some [{| candle := {| openTime := 1000; open := "1"; high := "2";
                                low := "0.5"; close := "1.5"; volume := "10";
                                closeTime := 1299 |};
                   openISO := "1970-01-01T00:00:01.000Z";
                   closeISO := "1970-01-01T00:00:01.299Z" |}])
    by reflexivity.
  destruct (body_mapped upstream env max_arguments 0%nat st _ _ (Hup _)
              ltac:(discriminate) Hmap ltac:(simpl; lia))
    as (c & Hc & Hb).
  rewrite Hlimit in Hb. cbn [length Z.of_nat] in Hb.
  change (Z.pos (Pos.of_succ_nat 0) <? 500) with true in Hb.
  assert (Ha : advance upstream env max_arguments 0%nat st = None)
    by (unfold advance; now rewrite Hb).
  split; [now rewrite Hb|].
  destruct (fetchCandles_stops Date_getTime upstream env max_arguments
              writeFileSync 0%nat st fuel eq_refl Ha Hfuel)
    as (t & Ht & Hreq & Hw).
  exists t. rewrite Hb in Hw. simpl in Hw. auto.
Qed.

Lemma mapCandle_times r c :
  mapCandle r = Some c -> openTime c = raw0 r /\ closeTime c = raw6 r.
Proof.
  unfold mapCandle.
  destruct (formatCandleTime (Num (raw0 r))); [|discriminate].
  destruct (formatCandleTime (Num (raw6 r))); [|discriminate].
  simpl. intros H. inversion H. auto.
Qed.

(** A mapped candle carries valid time values, which JavaScript prints
    in plain decimal notation. *)
Lemma mapCandle_in_range r c :
  mapCandle r = Some c ->
  Z.abs (openTime c) <= MAX_TIME /\ Z.abs (closeTime c) <= MAX_TIME.
Proof.
  unfold mapCandle, formatCandleTime, Date_toISOString, TimeClip.
  destruct (Z.abs (raw0 r) <=? MAX_TIME) eqn:Ho; [|discriminate].
  destruct (Z.abs (raw6 r) <=? MAX_TIME) eqn:Hc; [|discriminate].
  simpl. intros H. inversion H; subst; simpl.
  split; now apply Z.leb_le.
Qed.

Lemma mapM_mapCandle_openTimes rawCandles : forall candles,
  mapM mapCandle rawCandles = Some candles ->
  openTimes candles = map raw0 rawCandles.
Proof.
  intros candles H. apply mapM_Some in H.
  induction H as [|r c rs cs Hrc _ IH]; [reflexivity|].
  simpl. rewrite IH. f_equal. now apply mapCandle_times.
Qed.

Lemma StronglySorted_lt_NoDup (l : list Z) :
  StronglySorted Z.lt l -> List.NoDup l.
Proof.
  induction 1 as [|x l _ IH Hx]; constructor; [|exact IH].
  intros Hin. rewrite List.Forall_forall in Hx.
  specialize (Hx _ Hin). lia.
Qed.

(** In a page with strictly increasing open times, no candle opens
    after the last one closes. *)
Lemma well_ordered_last cursor rawCandles r :
  well_ordered cursor rawCandles ->
  last rawCandles = Some r ->
  number_le cursor (raw0 r) /\ raw0 r <= raw6 r /\
  Forall (fun x => x <= raw6 r) (map raw0 rawCandles).
Proof.
  intros [Hs Hall] Hlast. apply last_Some in Hlast as [l ->].
  rewrite map_app in *. simpl in *.
  apply Forall_app in Hall as [_ Hr]. inversion Hr as [|? ? [Hcur Hoc] _]; subst.
  split; [exact Hcur|]. split; [exact Hoc|].
  apply Forall_app. split.
  - apply Forall_forall. intros x Hx.
    pose proof (StronglySorted_app_1_elem_of _ _ _ x (raw0 r) Hs Hx
                  ltac:(apply list_elem_of_singleton; reflexivity)).
    lia.
  - repeat constructor. exact Hoc.
Qed.

(** The invariant of the loop: the accumulated open times increase
    strictly and all lie before the cursor. *)
Lemma body_keeps_order n st :
  StronglySorted Z.lt (openTimes (allCandles st)) ->
  Forall (number_gt (startTime st)) (openTimes (allCandles st)) ->
  (forall rawCandles,
     upstream n (request env st) = Data rawCandles ->
     well_ordered (startTime st) rawCandles) ->
  StronglySorted Z.lt (openTimes (allCandles (body upstream env max_arguments n st).1.2)) /\
  Forall (number_gt (startTime (body upstream env max_arguments n st).1.2))
         (openTimes (allCandles (body upstream env max_arguments n st).1.2)).
Proof.
  intros Hs Hb Hpage.
  destruct (upstream n (request env st)) as [|rawCandles] eqn:Hup.
  { rewrite (body_Throw upstream env max_arguments n st Hup). auto. }
  destruct rawCandles as [|r0 rs].
  { rewrite (body_empty upstream env max_arguments n st Hup). auto. }
  destruct (mapM mapCandle (r0 :: rs)) as [candles|] eqn:Hmap.
  2: { rewrite (body_unmapped upstream env max_arguments n st _ Hup ltac:(discriminate) Hmap).
       auto. }
  destruct (Z.pos max_arguments <? Z.of_nat (length candles)) eqn:Hfit.
  { apply Z.ltb_lt in Hfit.
    rewrite (body_too_long upstream env max_arguments n st _ _ Hup
               ltac:(discriminate) Hmap Hfit).
    auto. }
  apply Z.ltb_ge in Hfit.
  destruct (body_mapped upstream env max_arguments n st _ _ Hup
              ltac:(discriminate) Hmap Hfit)
    as (c & Hc & ->).
  destruct (mapM_mapCandle_last _ _ Hmap ltac:(discriminate))
    as (c' & r & Hc' & Hr & Hrc).
  rewrite Hc in Hc'. inversion Hc'; subst c'; clear Hc'.
  apply mapCandle_times in Hrc as [_ Hclose].
  specialize (Hpage _ eq_refl).
  destruct (well_ordered_last _ _ _ Hpage Hr) as (Hcur & Hoc & Hle).
  destruct Hpage as [Hsorted Hall].
  cbn [fst snd allCandles startTime].
  unfold openTimes in *. rewrite map_app.
  fold (openTimes candles). rewrite (mapM_mapCandle_openTimes _ _ Hmap).
  destruct (startTime st) as [|cur]; [contradiction|]. simpl in Hcur.
  split.
  - apply StronglySorted_app_2; [|exact Hs|exact Hsorted].
    intros x1 x2 Hx1 Hx2.
    rewrite Forall_forall in Hb. specialize (Hb _ Hx1). simpl in Hb.
    apply list_elem_of_fmap in Hx2 as (r2 & -> & Hr2).
    rewrite Forall_forall in Hall. destruct (Hall _ Hr2) as [Hle2 _].
    simpl in Hle2. lia.
  - apply Forall_app. split.
    + eapply Forall_impl; [exact Hb|]. simpl. intros x Hx.
      rewrite Hclose. lia.
    + eapply Forall_impl; [exact Hle|]. simpl. intros x Hx.
      rewrite Hclose. lia.
Qed.

Lemma entry_keeps_order :
  (forall k st rawCandles,
     entry Date_getTime upstream env max_arguments k = Some st ->
     upstream k (request env st) = Data rawCandles ->
     well_ordered (startTime st) rawCandles) ->
  forall k st,
    entry Date_getTime upstream env max_arguments k = Some st ->
    StronglySorted Z.lt (openTimes (allCandles st)) /\
    Forall (number_gt (startTime st)) (openTimes (allCandles st)).
Proof.
  intros Hpages. induction k as [|k IH]; intros st He.
  - inversion He; subst. simpl. split; constructor.
  - rewrite entry_S in He.
    destruct (entry Date_getTime upstream env max_arguments k) as [st_k|] eqn:Hk;
      [|discriminate].
    simpl in He. destruct (IH st_k eq_refl) as [Hs Hb].
    apply advance_Some in He as [_ [evs Hbody]].
    pose proof (body_keeps_order k st_k Hs Hb
                  (fun raws => Hpages k st_k raws Hk)) as Hkeep.
    now rewrite Hbody in Hkeep.
Qed.

(** C6. When every page of the run is strictly increasing in open time
    and each of its candles opens at or after the requested start time
    and closes no earlier than it opens, the accumulated candles are
    strictly increasing in open time on entering every iteration and at
    loop exit; the candles the loop leaves are the rows of the file, in
    that order, so that no open time occurs twice in it, within a page or
    across pages. *)
Theorem accumulated_strictly_increasing :
  (forall k st rawCandles,
     entry Date_getTime upstream env max_arguments k = Some st ->
     upstream k (request env st) = Data rawCandles ->
     well_ordered (startTime st) rawCandles) ->
  (forall k st,
     entry Date_getTime upstream env max_arguments k = Some st ->
     StronglySorted Z.lt (openTimes (allCandles st))) /\
  (forall fuel pre stf,
     while upstream env max_arguments fuel 0 (initial Date_getTime env) =
       Some (pre, stf) ->
     StronglySorted Z.lt (openTimes (allCandles stf)) /\
     List.NoDup (openTimes (allCandles stf)) /\
     exists t,
       events (fetchCandles Date_getTime upstream env max_arguments
                 writeFileSync fuel) = Some t /\
       written t =
         [spec_header +:+ nl +:+ join nl (map spec_row (allCandles stf))]).
Proof.
  intros Hpages. split.
  { intros k st He. now destruct (entry_keeps_order Hpages k st He). }
  intros fuel pre stf Hw.
  destruct (while_exit upstream env max_arguments fuel 0%nat
              (initial Date_getTime env) pre stf eq_refl Hw)
    as (k & st_k & He & _ & Hst).
  destruct (entry_keeps_order Hpages k st_k He) as [Hs Hb].
  destruct (body_keeps_order k st_k Hs Hb
              (fun raws => Hpages k st_k raws He)) as [Hs' _].
  simpl in Hst. rewrite <- Hst in Hs'.
  split; [exact Hs'|]. split; [now apply StronglySorted_lt_NoDup|].
  unfold fetchCandles, events. rewrite Hw. simpl. unfold saveCandlesToFile.
  destruct (writeFileSync Cwd (OUTPUT_FILE env) _); simpl;
    (eexists; split; [reflexivity|]);
    unfold written; simpl; rewrite !omap_app;
    fold (written pre); rewrite (while_written _ _ _ _ _ Hw); reflexivity.
Qed.

(** C8, as the code has it.  The delay is awaited once at the end of
    every iteration whose page is non-empty, maps and is appended,
    including the short page that ends the loop; an iteration that ends
    by an error (a failed request, a record that does not map, a page with
    more candles than one call takes arguments) or by an empty page awaits
    none. *)
Theorem delay_follows_every_mapped_page n st :
  match upstream n (request env st) with
  | Throw => delays (body upstream env max_arguments n st).1.1 = []
  | Data [] => delays (body upstream env max_arguments n st).1.1 = []
  | Data (r :: rs) =>
      match mapM mapCandle (r :: rs) with
      | None => delays (body upstream env max_arguments n st).1.1 = []
      | Some candles =>
          if Z.pos max_arguments <? Z.of_nat (length candles) then
            delays (body upstream env max_arguments n st).1.1 = []
          else
            (body upstream env max_arguments n st).1.1 =
              [HttpGet (request env st); Delay (REQ_DELAY_MS env)] /\
            allCandles (body upstream env max_arguments n st).1.2 =
              allCandles st ++ candles /\
            fetchMore (body upstream env max_arguments n st).1.2 =
              (if Z.of_nat (length (r :: rs)) <? LIMIT env then false
               else fetchMore st)
      end
  end.
Proof.
  destruct (upstream n (request env st)) as [|rawCandles] eqn:Hup.
  { now rewrite (body_Throw upstream env max_arguments n st Hup). }
  destruct rawCandles as [|r rs].
  { now rewrite (body_empty upstream env max_arguments n st Hup). }
  destruct (mapM mapCandle (r :: rs)) as [candles|] eqn:Hmap.
  - destruct (Z.pos max_arguments <? Z.of_nat (length candles)) eqn:Hfit.
    + apply Z.ltb_lt in Hfit.
      now rewrite (body_too_long upstream env max_arguments n st _ _ Hup
                     ltac:(discriminate) Hmap Hfit).
    + apply Z.ltb_ge in Hfit.
      destruct (body_mapped upstream env max_arguments n st _ _ Hup
                  ltac:(discriminate) Hmap Hfit)
        as (c & _ & ->).
      split; [reflexivity|]. split; [reflexivity|]. cbn [fst snd fetchMore].
      now rewrite <- (length_mapM _ _ _ Hmap).
  - now rewrite (body_unmapped upstream env max_arguments n st _ Hup
                   ltac:(discriminate) Hmap).
Qed.

End Ordering.

(** ** Start-up validation *)

Section Validation.

Variable Number_ : string -> coerced.
Variable datetime : string -> bool.
Variable zod_int : Z -> bool.
Variable Date_getTime : string -> number.
Variable upstream : nat -> Params.t -> response.
Variable max_arguments : positive.
Variable writeFileSync : directory -> string -> string -> bool.

Lemma z_string_min_1_None v :
  z_string_min_1 v = None <-> is_empty v.
Proof.
  unfold z_string_min_1, is_empty. destruct v as [s|]; simpl.
  - destruct s as [|a s]; simpl.
    + split; auto.
    + split; [discriminate|]. intros [H|H]; discriminate.
  - split; auto.
Qed.

Lemma z_coerce_number_int_positive_None v :
  not_positive_integer Number_ v ->
  z_coerce_number_int_positive Number_ zod_int v = None.
Proof.
  unfold z_coerce_number_int_positive, not_positive_integer.
  destruct v as [s|]; [|reflexivity].
  intros H. destruct (Number_ s) as [|z|] eqn:Hn; try reflexivity.
  specialize (H s z eq_refl Hn).
  destruct (0 <? z) eqn:Hz; [|now rewrite andb_false_r].
  apply Z.ltb_lt in Hz. lia.
Qed.

Lemma z_string_datetime_None v :
  z_string_datetime datetime v = None <-> not_datetime datetime v.
Proof.
  unfold z_string_datetime, not_datetime. destruct v as [s|]; simpl.
  - split.
    + intros H s' Hs. inversion Hs; subst s'.
      destruct (datetime s); [discriminate|reflexivity].
    + intros H. now rewrite (H s eq_refl).
  - split; [discriminate|reflexivity].
Qed.

(** Validation fails on the invalid environments. *)
Lemma envSchema_safeParse_None process_env :
  invalid Number_ datetime process_env ->
  envSchema_safeParse Number_ datetime zod_int process_env = None.
Proof.
  unfold envSchema_safeParse, invalid.
  rewrite <- !z_string_min_1_None, <- z_string_datetime_None.
  intros H.
  assert (Hl := z_coerce_number_int_positive_None (process_env !! "LIMIT")).
  assert (Hd :=
    z_coerce_number_int_positive_None (process_env !! "REQ_DELAY_MS")).
  destruct (z_string_min_1 (process_env !! "SYMBOL"));
    destruct (z_string_min_1 (process_env !! "INTERVAL"));
    destruct (z_coerce_number_int_positive Number_ zod_int
                (process_env !! "LIMIT"));
    destruct (z_coerce_number_int_positive Number_ zod_int
                (process_env !! "REQ_DELAY_MS"));
    destruct (z_string_datetime datetime (process_env !! "START_DATE"));
    destruct (z_string_min_1 (process_env !! "OUTPUT_FILE"));
    simpl; auto;
    repeat (destruct H as [H|H]; try discriminate;
            try (now apply Hl in H); try (now apply Hd in H)).
Qed.

(** C7. An environment whose START_DATE is not a datetime, whose LIMIT
    or REQ_DELAY_MS is not a positive integer, or whose SYMBOL, INTERVAL
    or OUTPUT_FILE is empty makes the process print its diagnostic and
    exit with status 1 at start-up: the whole trace is those three
    events, and no request is sent. *)
Theorem invalid_environment_aborts_at_startup process_env fuel :
  invalid Number_ datetime process_env ->
  exists t,
    program Number_ datetime zod_int Date_getTime upstream max_arguments
      writeFileSync process_env fuel = Some t /\
    t = [ConsoleError MsgInvalidEnv; ConsoleError MsgZodIssues; Exit 1] /\
    requests t = [].
Proof.
  intros H. apply envSchema_safeParse_None in H.
  unfold program. rewrite H. eexists. split; [reflexivity|]. split; reflexivity.
Qed.

(** C9, as the code has it.  REQ_DELAY_MS = 0 is not a valid setting:
    the schema asks for a positive integer, so a value that coerces to
    0 fails validation and the process exits with status 1 before any
    request. *)
Theorem zero_delay_is_rejected process_env s fuel :
  process_env !! "REQ_DELAY_MS" = Some s ->
  Number_ s = Integer 0 ->
  envSchema_safeParse Number_ datetime zod_int process_env = None /\
  program Number_ datetime zod_int Date_getTime upstream max_arguments
    writeFileSync process_env fuel =
    Some [ConsoleError MsgInvalidEnv; ConsoleError MsgZodIssues; Exit 1].
Proof.
  intros Hs Hn.
  assert (H : envSchema_safeParse Number_ datetime zod_int process_env = None).
  { apply envSchema_safeParse_None. right. right. left.
    intros s' z Hs' Hn'. rewrite Hs in Hs'. inversion Hs'; subst s'.
    rewrite Hn in Hn'. inversion Hn'. lia. }
  split; [exact H|]. unfold program. now rewrite H.
Qed.

End Validation.

(** ** The legacy script against the service *)

Section Equivalence.

Variable Date_getTime : string -> number.
Variable upstream : nat -> Params.t -> response.
Variable env : Env.
Variable max_arguments : positive.
Variable writeFileSync : directory -> string -> string -> bool.

Lemma remap_mapCandle r c :
  mapCandle r = Some c -> Legacy.remap (candle c) = Some c.
Proof.
  unfold Legacy.remap, Legacy.mapCandle, mapCandle.
  destruct (formatCandleTime (Num (raw0 r))) as [o|] eqn:Ho; [|discriminate].
  destruct (formatCandleTime (Num (raw6 r))) as [k|] eqn:Hk; [|discriminate].
  simpl. intros H. inversion H; subst; clear H. simpl.
  rewrite Ho, Hk. reflexivity.
Qed.

Lemma mapM_remap candles :
  mapped candles -> mapM Legacy.remap (map candle candles) = Some candles.
Proof.
  intros H. apply mapM_Some. apply Forall2_fmap_l.
  apply Forall_Forall2_diag. eapply Forall_impl; [exact H|].
  intros c [r Hr]. eapply remap_mapCandle, Hr.
Qed.

Lemma mapM_mapCandle_mapped rawCandles candles :
  mapM mapCandle rawCandles = Some candles -> mapped candles.
Proof.
  intros H. apply mapM_Some in H.
  induction H as [|r c rs cs Hrc _ IH]; constructor; eauto.
Qed.

Lemma request_agree st lst :
  agree st lst -> Legacy.request env lst = request env st.
Proof. intros (_ & Hs & _). unfold Legacy.request, request. now rewrite Hs. Qed.

(** One iteration of the script does what one iteration of the service
    does, provided the script can print the cursor when a non-empty page
    arrives. *)
Lemma body_agree n st lst :
  agree st lst ->
  mapped (allCandles st) ->
  (forall rawCandles,
     upstream n (request env st) = Data rawCandles ->
     rawCandles <> [] ->
     formatCandleTime (startTime st) <> None) ->
  (Legacy.body upstream env max_arguments n lst).2 = (body upstream env max_arguments n st).2 /\
  agree (body upstream env max_arguments n st).1.2 (Legacy.body upstream env max_arguments n lst).1.2 /\
  mapped (allCandles (body upstream env max_arguments n st).1.2).
Proof.
  intros Hag Hmapped Hfmt.
  pose proof (request_agree _ _ Hag) as Hreq.
  destruct Hag as (Hall & Hstart & Hmore).
  unfold Legacy.body, Legacy.failed. rewrite Hreq.
  destruct (upstream n (request env st)) as [|rawCandles] eqn:Hup.
  { rewrite (body_Throw upstream env max_arguments n st Hup). simpl.
    unfold agree. simpl. auto. }
  destruct rawCandles as [|r0 rs].
  { rewrite (body_empty upstream env max_arguments n st Hup). simpl.
    unfold agree. auto. }
  cbn [length Nat.eqb].
  specialize (Hfmt _ eq_refl ltac:(discriminate)).
  rewrite <- Hstart.
  destruct (formatCandleTime (startTime st)) as [iso|]; [|contradiction].
  change Legacy.mapCandle with mapCandle.
  destruct (mapM mapCandle (r0 :: rs)) as [candles|] eqn:Hmap.
  2: { rewrite (body_unmapped upstream env max_arguments n st _ Hup ltac:(discriminate) Hmap).
       simpl. unfold agree. simpl. auto. }
  destruct (Z.pos max_arguments <? Z.of_nat (length candles)) eqn:Hfit.
  { apply Z.ltb_lt in Hfit.
    rewrite (body_too_long upstream env max_arguments n st _ _ Hup
               ltac:(discriminate) Hmap Hfit).
    simpl. unfold agree. simpl. auto. }
  apply Z.ltb_ge in Hfit.
  destruct (body_mapped upstream env max_arguments n st _ _ Hup
              ltac:(discriminate) Hmap Hfit)
    as (c & Hc & ->).
  rewrite Hc. simpl. unfold agree. simpl.
  rewrite map_app, Hall, Hmore. repeat split; auto.
  apply Forall_app. split; [exact Hmapped|].
  eapply mapM_mapCandle_mapped, Hmap.
Qed.

Lemma while_agree fuel : forall n st lst,
  agree st lst ->
  mapped (allCandles st) ->
  (forall k st_k rawCandles,
     entry_from upstream env max_arguments n st k = Some st_k ->
     upstream (n + k) (request env st_k) = Data rawCandles ->
     rawCandles <> [] ->
     formatCandleTime (startTime st_k) <> None) ->
  match while upstream env max_arguments fuel n st, Legacy.while upstream env max_arguments fuel n lst with
  | Some (_, stf), Some (_, lstf) => agree stf lstf /\ mapped (allCandles stf)
  | None, None => True
  | _, _ => False
  end.
Proof.
  induction fuel as [|fuel IH]; intros n st lst Hag Hmapped Hfmt.
  - simpl. destruct Hag as (? & ? & Hmore). rewrite <- Hmore.
    destruct (fetchMore st) eqn:Hm; [exact I|].
    split; [|exact Hmapped]. unfold agree. repeat split; congruence.
  - simpl. pose proof Hag as (? & ? & Hmore). rewrite <- Hmore.
    destruct (fetchMore st) eqn:Hm; [|auto].
    assert (Hfmt0 : forall rawCandles,
               upstream n (request env st) = Data rawCandles ->
               rawCandles <> [] ->
               formatCandleTime (startTime st) <> None).
    { intros raws Hup Hne. apply (Hfmt 0%nat st raws eq_refl); [|exact Hne].
      now rewrite Nat.add_0_r. }
    destruct (body_agree n st lst Hag Hmapped Hfmt0) as (Hfl & Hag' & Hmapped').
    assert (Hadv :
               fetchMore (body upstream env max_arguments n st).1.2 = true ->
               (body upstream env max_arguments n st).2 = Next ->
               advance upstream env max_arguments n st = Some (body upstream env max_arguments n st).1.2).
    { intros Hm' Hnext. unfold advance.
      destruct (body upstream env max_arguments n st) as [[evs s] fl]. simpl in Hm', Hnext.
      rewrite Hnext, Hm'. reflexivity. }
    destruct (body upstream env max_arguments n st) as [[evs st'] fl].
    destruct (Legacy.body upstream env max_arguments n lst) as [[evs' lst'] fl'].
    simpl in Hfl, Hag', Hmapped', Hadv. subst fl'.
    destruct fl; [|auto].
    destruct (fetchMore st') eqn:Hm'.
    + assert (Hfmt' : forall k st_k rawCandles,
                 entry_from upstream env max_arguments (S n) st' k = Some st_k ->
                 upstream (S n + k) (request env st_k) = Data rawCandles ->
                 rawCandles <> [] ->
                 formatCandleTime (startTime st_k) <> None).
      { intros k st_k raws He Hup Hne.
        apply (Hfmt (S k) st_k raws); [|now rewrite Nat.add_succ_r|exact Hne].
        simpl. rewrite (Hadv eq_refl eq_refl). exact He. }
      specialize (IH (S n) st' lst' Hag' Hmapped' Hfmt'). revert IH.
      destruct (while upstream env max_arguments fuel (S n) st') as [[t s]|];
        destruct (Legacy.while upstream env max_arguments fuel (S n) lst') as [[t' s']|];
        simpl; auto.
    + destruct Hag' as (Ha1 & Ha2 & Ha3).
      assert (Hw : while upstream env max_arguments fuel (S n) st' = Some ([], st'))
        by (destruct fuel; simpl; now rewrite Hm').
      assert (Hw' : Legacy.while upstream env max_arguments fuel (S n) lst' = Some ([], lst'))
        by (destruct fuel; simpl; now rewrite <- Ha3, Hm').
      rewrite Hw, Hw'. simpl. unfold agree. auto.
Qed.

Lemma legacy_while_written fuel : forall n lst t lst',
  Legacy.while upstream env max_arguments fuel n lst = Some (t, lst') -> written t = [].
Proof.
  assert (Hbody : forall n lst, written (Legacy.body upstream env max_arguments n lst).1.1 = []).
  { intros n lst. unfold Legacy.body, Legacy.failed.
    destruct (upstream n (Legacy.request env lst)) as [|rawCandles];
      [reflexivity|].
    destruct (length rawCandles =? 0)%nat; [reflexivity|].
    destruct (formatCandleTime (Legacy.startTime lst)); [|reflexivity].
    destruct (mapM Legacy.mapCandle rawCandles) as [candles|]; [|reflexivity].
    destruct (Z.pos max_arguments <? Z.of_nat (length candles));
      [reflexivity|].
    destruct (last candles); reflexivity. }
  induction fuel as [|fuel IH]; intros n lst t lst'; simpl.
  - destruct (Legacy.fetchMore lst); [discriminate|]. intros H. now inversion H.
  - destruct (Legacy.fetchMore lst); [|intros H; now inversion H].
    specialize (Hbody n lst).
    destruct (Legacy.body upstream env max_arguments n lst) as [[evs s] fl]. simpl in Hbody.
    destruct fl.
    + destruct (Legacy.while upstream env max_arguments fuel (S n) s) as [[t' s']|] eqn:Hw;
        [|discriminate].
      simpl. intros H. inversion H; subst.
      unfold written in *. rewrite omap_app, Hbody. simpl. eapply IH, Hw.
    + intros H. inversion H; subst. exact Hbody.
Qed.

(** C10, as the code has it.  With the same symbol, interval, limit,
    delay and start date, where the start date is a valid instant and
    every non-empty page answers a request whose cursor is a valid
    [Date] instant (which the script prints before it maps the page),
    the legacy script and the service hand the same contents to
    [fs.writeFileSync], and one runs out of fuel exactly when the other
    does. *)
Theorem legacy_writes_the_same_file fuel :
  formatCandleTime (Date_getTime (START_DATE env)) <> None ->
  (forall k st rawCandles,
     entry Date_getTime upstream env max_arguments k = Some st ->
     upstream k (request env st) = Data rawCandles ->
     rawCandles <> [] ->
     formatCandleTime (startTime st) <> None) ->
  written <$> events (Legacy.fetchCandles Date_getTime upstream env
                        max_arguments writeFileSync fuel) =
  written <$> events (fetchCandles Date_getTime upstream env max_arguments
                        writeFileSync fuel).
Proof.
  intros Hstart Hfmt.
  assert (Hclip : TimeClip (Date_getTime (START_DATE env)) =
                  Date_getTime (START_DATE env)).
  { revert Hstart. unfold formatCandleTime, Date_toISOString, TimeClip.
    destruct (Date_getTime (START_DATE env)) as [|z]; [reflexivity|].
    destruct (Z.abs z <=? MAX_TIME); [reflexivity|]. intros H. now elim H. }
  unfold events, Legacy.fetchCandles, fetchCandles, Legacy.START_DATE.
  rewrite Hclip.
  unfold formatCandleTime in Hstart.
  destruct (Date_toISOString (Date_getTime (START_DATE env))) as [iso|];
    [|contradiction].
  assert (Hag : agree (initial Date_getTime env)
                  (Legacy.initial Date_getTime env)).
  { unfold agree, initial, Legacy.initial, Legacy.START_DATE. simpl.
    rewrite Hclip. auto. }
  pose proof (while_agree fuel 0%nat _ _ Hag ltac:(constructor) Hfmt) as Hsim.
  destruct (while upstream env max_arguments fuel 0 (initial Date_getTime env))
    as [[t stf]|] eqn:Hw;
    destruct (Legacy.while upstream env max_arguments fuel 0 (Legacy.initial Date_getTime env))
      as [[t' lstf]|] eqn:Hw'; try contradiction; [|reflexivity].
  destruct Hsim as ((Hall & _ & _) & Hmapped). simpl.
  rewrite <- Hall, (mapM_remap _ Hmapped).
  unfold Legacy.saveCandlesToFile, saveCandlesToFile.
  change (csv (allCandles stf)) with
    ("openTime,open,high,low,close,volume,closeTime,openISO,closeISO" +:+ nl
     +:+ join nl
           (map (fun c : CandleWithISO =>
              Number_toString (openTime c) +:+ "," +:+ open c +:+ "," +:+
              high c +:+ "," +:+ low c +:+ "," +:+ close c +:+ "," +:+
              volume c +:+ "," +:+ Number_toString (closeTime c) +:+ ","
              +:+ openISO c +:+ "," +:+ closeISO c) (allCandles stf))).
  destruct (writeFileSync Dirname _ _);
    destruct (writeFileSync Cwd _ _); simpl; f_equal;
    unfold written; simpl; rewrite !omap_app;
    fold (written t); fold (written t');
    rewrite (while_written _ _ _ _ _ _ _ _ Hw),
      (legacy_while_written _ _ _ _ _ Hw');
    reflexivity.
Qed.

End Equivalence.

(** ** Concrete runs *)

(** Once the loop has ended, no later iteration is entered. *)
Lemma entry_gone_for_good Date_getTime upstream env max_arguments k :
  entry Date_getTime upstream env max_arguments k = None ->
  forall j, entry Date_getTime upstream env max_arguments (j + k) = None.
Proof.
  intros Hk. induction j as [|j IH]; [exact Hk|].
  simpl. rewrite entry_S, IH. reflexivity.
Qed.

Lemma cursor_follows_last_closeTime_witness :
  entry Sample.Date_getTime Sample.minutes Sample.one_per_page
    Scenario.max_arguments 0 =
    Some (initial Sample.Date_getTime Sample.one_per_page) /\
  startTime
    (body Sample.minutes Sample.one_per_page Scenario.max_arguments 0
       (initial Sample.Date_getTime Sample.one_per_page)).1.2 =
    Num (1704067259999 + 1) /\
  exists st',
    entry Sample.Date_getTime Sample.minutes Sample.one_per_page
      Scenario.max_arguments 1 = Some st' /\
    requests (body Sample.minutes Sample.one_per_page Scenario.max_arguments
                1 st').1.1 =
      [{| Params.symbol := "BTCUSDT"; Params.interval := "1m";
          Params.startTime := Num (1704067259999 + 1); Params.limit := 1 |}].
Proof.
  split; [reflexivity|].
  destruct (cursor_follows_last_closeTime
              Sample.Date_getTime Sample.minutes Sample.one_per_page
              Scenario.max_arguments 0%nat
              (initial Sample.Date_getTime Sample.one_per_page)
              [Sample.kline 1704067200000 1704067259999]
              eq_refl eq_refl ltac:(discriminate)) as [H1 H].
  split.
  - destruct (H1 _ eq_refl ltac:(vm_compute; discriminate))
      as (c & Hc & Hst).
    vm_compute in Hc. inversion Hc; subst c. exact Hst.
  - eexists. split; [reflexivity|].
    destruct (H _ eq_refl) as (candles & c & Hmap & Hc & Hreq).
    vm_compute in Hmap. inversion Hmap; subst candles.
    vm_compute in Hc. inversion Hc; subst c. exact Hreq.
Defined.

(** C2, as the claim states it, fails: a short page is not always
    appended.  The only page of this run has one record, fewer than the
    500 requested, whose open time is past the last instant a [Date] can
    hold: [mapCandle] throws, the page is dropped whole, and the file has
    the header line and no row. *)
Lemma short_page_with_invalid_time_is_dropped :
  response_at Sample.Date_getTime Scenario.beyond Sample.readme
    Scenario.max_arguments 0 =
    Some (Data [Sample.kline (MAX_TIME + 1) (MAX_TIME + 1)]) /\
  Z.of_nat (length [Sample.kline (MAX_TIME + 1) (MAX_TIME + 1)]) <
    LIMIT Sample.readme /\
  allCandles
    (body Scenario.beyond Sample.readme Scenario.max_arguments 0
       (initial Sample.Date_getTime Sample.readme)).1.2 = [] /\
  written <$> events (fetchCandles Sample.Date_getTime Scenario.beyond
                        Sample.readme Scenario.max_arguments Scenario.disk 1) =
    Some ["openTime,open,high,low,close,volume,closeTime,openISO,closeISO"
          +:+ nl].
Proof. repeat split; vm_compute; reflexivity. Qed.

(** A short page is dropped too when it has more candles than one call
    takes arguments: with an engine that passes one argument, the page of
    two candles is not appended. *)
Lemma short_page_past_the_argument_limit_is_dropped :
  Z.of_nat (length [Sample.kline 1000 1299; Sample.kline 1300 1599]) <
    LIMIT Sample.readme /\
  written <$> events (fetchCandles Sample.Date_getTime Scenario.pair
                        Sample.readme Scenario.one_argument Scenario.disk 1) =
    Some ["openTime,open,high,low,close,volume,closeTime,openISO,closeISO"
          +:+ nl].
Proof. repeat split; vm_compute; reflexivity. Qed.

Lemma short_page_ends_the_run_witness :
  Z.of_nat (length [Sample.kline 1000 1299]) < LIMIT Sample.readme /\
  exists t,
    events (fetchCandles Sample.Date_getTime
              (Sample.scripted [Data [Sample.kline 1000 1299]]) Sample.readme
              Scenario.max_arguments Scenario.disk 1) = Some t /\
    length (requests t) = 1%nat /\
    written t =
      ["openTime,open,high,low,close,volume,closeTime,openISO,closeISO"
       +:+ nl +:+
       "1000,1,2,0.5,1.5,10,1299,1970-01-01T00:00:01.000Z,1970-01-01T00:00:01.299Z"].
Proof.
  split; [vm_compute; reflexivity|].
  destruct (short_page_ends_the_run Sample.Date_getTime
              (Sample.scripted [Data [Sample.kline 1000 1299]]) Sample.readme
              Scenario.max_arguments Scenario.disk
              0%nat [Sample.kline 1000 1299] _ eq_refl eq_refl
              ltac:(vm_compute; discriminate)) as [H _].
  destruct (H ltac:(vm_compute; reflexivity) 1%nat ltac:(lia))
    as (t & Ht & Hreq & Hw).
  exists t. split; [exact Ht|]. split; [exact Hreq|]. exact Hw.
Defined.

Lemma failed_request_keeps_earlier_pages_witness :
  exists t,
    events (fetchCandles Sample.Date_getTime
              (Sample.scripted
                 [Data [Sample.kline 1704067200000 1704067259999]; Throw])
              Sample.one_per_page Scenario.max_arguments Scenario.disk 2) =
      Some t /\
    length (requests t) = 2%nat /\
    written t =
      ["openTime,open,high,low,close,volume,closeTime,openISO,closeISO"
       +:+ nl +:+
       "1704067200000,1,2,0.5,1.5,10,1704067259999,2024-01-01T00:00:00.000Z,2024-01-01T00:00:59.999Z"].
Proof.
  destruct (failed_request_keeps_earlier_pages Sample.Date_getTime
              (Sample.scripted
                 [Data [Sample.kline 1704067200000 1704067259999]; Throw])
              Sample.one_per_page Scenario.max_arguments Scenario.disk
              1%nat eq_refl) as [_ H].
  destruct (H 2%nat ltac:(lia)) as (t & Ht & Hreq & Hw & _).
  exists t. split; [exact Ht|]. split; [exact Hreq|]. exact Hw.
Defined.

Lemma empty_page_ends_the_run_witness :
  exists t,
    events (fetchCandles Sample.Date_getTime Sample.minutes
              Sample.one_per_page Scenario.max_arguments Scenario.disk 3) =
      Some t /\
    length (requests t) = 3%nat /\
    written t =
      ["openTime,open,high,low,close,volume,closeTime,openISO,closeISO"
       +:+ nl +:+
       "1704067200000,1,2,0.5,1.5,10,1704067259999,2024-01-01T00:00:00.000Z,2024-01-01T00:00:59.999Z"
       +:+ nl +:+
       "1704067260000,1,2,0.5,1.5,10,1704067319999,2024-01-01T00:01:00.000Z,2024-01-01T00:01:59.999Z"].
Proof.
  destruct (empty_page_ends_the_run Sample.Date_getTime Sample.minutes
              Sample.one_per_page Scenario.max_arguments Scenario.disk
              2%nat eq_refl) as (_ & _ & H).
  destruct (H 3%nat ltac:(lia)) as (t & Ht & Hreq & Hw).
  exists t. split; [exact Ht|]. split; [exact Hreq|]. exact Hw.
Defined.

Lemma synthetic_page_round_trip_witness :
  LIMIT Sample.readme = 500 /\
  exists t,
    events (fetchCandles Sample.Date_getTime
              (Sample.scripted [Data [Sample.kline 1000 1299]]) Sample.readme
              Scenario.max_arguments Scenario.disk 1) = Some t /\
    written t =
      ["openTime,open,high,low,close,volume,closeTime,openISO,closeISO"
       +:+ nl +:+
       "1000,1,2,0.5,1.5,10,1299,1970-01-01T00:00:01.000Z,1970-01-01T00:00:01.299Z"].
Proof.
  split; [reflexivity|].
  destruct (synthetic_page_round_trip Sample.Date_getTime
              (Sample.scripted [Data [Sample.kline 1000 1299]]) Sample.readme
              Scenario.max_arguments Scenario.disk
              eq_refl (fun _ => eq_refl) 1%nat ltac:(lia))
    as (_ & t & Ht & _ & Hw).
  exists t. split; assumption.
Defined.

Lemma accumulated_strictly_increasing_witness :
  exists pre stf t,
    while Sample.minutes Sample.one_per_page Scenario.max_arguments 3 0
      (initial Sample.Date_getTime Sample.one_per_page) = Some (pre, stf) /\
    openTimes (allCandles stf) = [1704067200000; 1704067260000] /\
    StronglySorted Z.lt (openTimes (allCandles stf)) /\
    events (fetchCandles Sample.Date_getTime Sample.minutes
              Sample.one_per_page Scenario.max_arguments Scenario.disk 3) =
      Some t /\
    written t =
      [spec_header +:+ nl +:+ join nl (map spec_row (allCandles stf))].
Proof.
  assert (Hpages : forall k st rawCandles,
             entry Sample.Date_getTime Sample.minutes Sample.one_per_page
               Scenario.max_arguments k = Some st ->
             Sample.minutes k (request Sample.one_per_page st) = Data rawCandles ->
             well_ordered (startTime st) rawCandles).
  { intros k st raws _. unfold Sample.minutes. simpl.
    destruct (startTime st) as [|c].
    - intros H. inversion H. split; constructor.
    - destruct (k <? 2)%nat; intros H; inversion H.
      + split; repeat constructor; simpl; lia.
      + split; constructor. }
  destruct (accumulated_strictly_increasing Sample.Date_getTime Sample.minutes
              Sample.one_per_page Scenario.max_arguments Scenario.disk Hpages)
    as [_ H].
  destruct (while Sample.minutes Sample.one_per_page Scenario.max_arguments
              3 0 (initial Sample.Date_getTime Sample.one_per_page))
    as [[pre stf]|] eqn:Hw; [|vm_compute in Hw; discriminate Hw].
  destruct (H 3%nat pre stf Hw) as (Hs & _ & t & Ht & Hwr).
  exists pre, stf, t. split; [reflexivity|].
  split; [vm_compute in Hw; inversion Hw; reflexivity|].
  split; [exact Hs|]. split; assumption.
Defined.

Lemma invalid_environment_aborts_at_startup_witness :
  Sample.bad_date_env !! "START_DATE" = Some "yesterday" /\
  Sample.datetime "yesterday" = false /\
  program Sample.Number_ Sample.datetime Scenario.zod_int Sample.Date_getTime
    Sample.minutes Scenario.max_arguments Scenario.disk
    Sample.bad_date_env 3 =
    Some [ConsoleError MsgInvalidEnv; ConsoleError MsgZodIssues; Exit 1].
Proof.
  split; [vm_compute; reflexivity|]. split; [reflexivity|].
  destruct (invalid_environment_aborts_at_startup
              Sample.Number_ Sample.datetime Scenario.zod_int
              Sample.Date_getTime Sample.minutes Scenario.max_arguments
              Scenario.disk Sample.bad_date_env 3%nat) as (t & Ht & -> & _).
  - left. intros s Hs. vm_compute in Hs. inversion Hs. reflexivity.
  - exact Ht.
Defined.

(** C8, as the claim states it, fails: an iteration that ends the loop may
    still await the delay.  The synthetic short page of C5 is the only page
    of its run, and the 150 ms delay is awaited after it. *)
Lemma delay_awaited_on_the_last_iteration :
  ~ (forall upstream env max_arguments n st,
       advance upstream env max_arguments n st = None ->
       delays (body upstream env max_arguments n st).1.1 = []).
Proof.
  intros H.
  specialize (H (Sample.scripted [Data [Sample.kline 1000 1299]])
                Sample.readme Scenario.max_arguments 0%nat
                (initial Sample.Date_getTime Sample.readme) eq_refl).
  vm_compute in H. discriminate H.
Qed.

(** C9, as the claim states it, fails: the README environment passes
    validation, and the same environment with REQ_DELAY_MS=0 does not. *)
Lemma zero_delay_fails_validation :
  envSchema_safeParse Sample.Number_ Sample.datetime Scenario.zod_int
    Sample.readme_env = Some Sample.readme /\
  Sample.zero_delay_env !! "REQ_DELAY_MS" = Some "0" /\
  Sample.Number_ "0" = Integer 0 /\
  envSchema_safeParse Sample.Number_ Sample.datetime Scenario.zod_int
    Sample.zero_delay_env = None /\
  program Sample.Number_ Sample.datetime Scenario.zod_int Sample.Date_getTime
    Sample.minutes Scenario.max_arguments Scenario.disk
    Sample.zero_delay_env 3 =
    Some [ConsoleError MsgInvalidEnv; ConsoleError MsgZodIssues; Exit 1].
Proof. repeat split; vm_compute; reflexivity. Qed.

Lemma zero_delay_is_rejected_witness :
  Sample.zero_delay_env !! "REQ_DELAY_MS" = Some "0" /\
  Sample.Number_ "0" = Integer 0 /\
  envSchema_safeParse Sample.Number_ Sample.datetime Scenario.zod_int
    Sample.zero_delay_env = None.
Proof.
  assert (Hs : Sample.zero_delay_env !! "REQ_DELAY_MS" = Some "0")
    by (vm_compute; reflexivity).
  split; [exact Hs|]. split; [reflexivity|].
  exact (proj1 (zero_delay_is_rejected Sample.Number_ Sample.datetime
                  Scenario.zod_int Sample.Date_getTime Sample.minutes
                  Scenario.max_arguments Scenario.disk Sample.zero_delay_env
                  "0" 3%nat Hs eq_refl)).
Defined.

(** C10, as the claim states it, fails.  With one candle per page, a first
    page whose candle closes at the last instant a [Date] can hold moves
    the cursor past that instant; when the second page arrives the script
    fails to print the cursor and stops, while the service appends the
    page.  The script writes one row and the service two. *)
Lemma legacy_stops_where_service_goes_on :
  written <$> events (Legacy.fetchCandles Sample.Date_getTime
                        Sample.last_instant Sample.one_per_page
                        Scenario.max_arguments Scenario.disk 3) <>
  written <$> events (fetchCandles Sample.Date_getTime Sample.last_instant
                        Sample.one_per_page Scenario.max_arguments
                        Scenario.disk 3).
Proof. vm_compute. discriminate. Qed.

Lemma legacy_writes_the_same_file_witness :
  formatCandleTime (Sample.Date_getTime (START_DATE Sample.one_per_page)) =
    Some "2024-01-01T00:00:00.000Z" /\
  written <$> events (Legacy.fetchCandles Sample.Date_getTime Sample.minutes
                        Sample.one_per_page Scenario.max_arguments
                        Scenario.disk 3) =
  written <$> events (fetchCandles Sample.Date_getTime Sample.minutes
                        Sample.one_per_page Scenario.max_arguments
                        Scenario.disk 3).
Proof.
  split; [reflexivity|].
  apply legacy_writes_the_same_file.
  - vm_compute. discriminate.
  - intros k st raws He _ _. revert He.
    destruct k as [|[|[|k]]].
    + intros H. inversion H. vm_compute. discriminate.
    + intros H. vm_compute in H. inversion H. vm_compute. discriminate.
    + intros H. vm_compute in H. inversion H. vm_compute. discriminate.
    + replace (S (S (S k))) with (k + 3)%nat by lia.
      rewrite entry_gone_for_good by reflexivity. discriminate.
Defined.


(** * Further properties of the sources *)

(** ** The paging loop *)

Section Paging.

Variable Date_getTime : string -> number.
Variable upstream : nat -> Params.t -> response.
Variable env : Env.
Variable max_arguments : positive.
Variable writeFileSync : directory -> string -> string -> bool.

Lemma advance_full_page n st rawCandles candles :
  fetchMore st = true ->
  upstream n (request env st) = Data rawCandles ->
  rawCandles <> [] ->
  mapM mapCandle rawCandles = Some candles ->
  Z.of_nat (length candles) <= Z.pos max_arguments ->
  LIMIT env <= Z.of_nat (length rawCandles) ->
  exists c,
    last candles = Some c /\
    advance upstream env max_arguments n st =
      Some {| allCandles := allCandles st ++ candles;
              startTime := Num (closeTime c + 1);
              fetchMore := true |}.
Proof.
  intros Hm Hup Hne Hmap Hfit Hfull.
  destruct (body_mapped upstream env max_arguments n st _ _ Hup Hne Hmap Hfit)
    as (c & Hc & Hb).
  exists c. split; [exact Hc|].
  unfold advance. rewrite Hb.
  rewrite <- (length_mapM _ _ _ Hmap).
  apply Z.ltb_ge in Hfull. rewrite Hfull, Hm. reflexivity.
Qed.

(** X1. The loop goes on after an iteration exactly when the answer is a
    non-empty page that maps, has no more candles than one call takes
    arguments, and has at least [LIMIT] records; a failed request, an
    empty page, a page that does not map, a page too long for the spread
    call of [push] and a short page are the only ways it ends. *)
Theorem loop_goes_on_iff_full_page n st :
  fetchMore st = true ->
  (is_Some (advance upstream env max_arguments n st) <->
   exists rawCandles candles,
     upstream n (request env st) = Data rawCandles /\
     rawCandles <> [] /\
     mapM mapCandle rawCandles = Some candles /\
     Z.of_nat (length candles) <= Z.pos max_arguments /\
     LIMIT env <= Z.of_nat (length rawCandles)).
Proof.
  intros Hm. split.
  - intros [st' Ha].
    destruct (advance_inv _ _ _ _ _ _ Ha)
      as (raws & candles & c & Hup & Hne & Hmap & _ & Hfull & _).
    exists raws, candles. rewrite (length_mapM _ _ _ Hmap).
    pose proof (advance_fits _ _ _ _ _ _ _ _ Ha Hup Hmap). auto.
  - intros (raws & candles & Hup & Hne & Hmap & Hfit & Hfull).
    destruct (advance_full_page n st _ _ Hm Hup Hne Hmap Hfit Hfull)
      as (c & _ & ->).
    eexists. reflexivity.
Qed.

(** X2. A server that answers every request with a non-empty page of at
    least [LIMIT] records that map, and no longer than one call takes
    arguments, keeps the loop running for ever: every iteration is entered
    and no amount of fuel finishes the run, so nothing is ever written.
    The loop has no bound of its own. *)
Theorem full_pages_never_end :
  (forall n p,
     exists rawCandles candles,
       upstream n p = Data rawCandles /\
       rawCandles <> [] /\
       mapM mapCandle rawCandles = Some candles /\
       Z.of_nat (length candles) <= Z.pos max_arguments /\
       LIMIT env <= Z.of_nat (length rawCandles)) ->
  (forall k, is_Some (entry Date_getTime upstream env max_arguments k)) /\
  (forall fuel,
     fetchCandles Date_getTime upstream env max_arguments writeFileSync fuel =
       None).
Proof.
  intros Hfull.
  assert (Hadv : forall n st, fetchMore st = true ->
                   exists st', advance upstream env max_arguments n st = Some st').
  { intros n st Hm.
    destruct (Hfull n (request env st))
      as (raws & candles & Hup & Hne & Hmap & Hfit & Hl).
    destruct (advance_full_page n st _ _ Hm Hup Hne Hmap Hfit Hl)
      as (c & _ & Ha).
    eauto. }
  split.
  - induction k as [|k IH]; [eexists; reflexivity|].
    destruct IH as [st He]. rewrite entry_S, He. simpl.
    destruct (Hadv k st (entry_fetchMore _ _ _ _ _ _ He)) as [st' ->]. eauto.
  - assert (Hw : forall fuel n st, fetchMore st = true ->
                   while upstream env max_arguments fuel n st = None).
    { induction fuel as [|fuel IH]; intros n st Hm.
      - simpl. now rewrite Hm.
      - destruct (Hadv n st Hm) as [st' Ha].
        rewrite (while_go _ _ _ _ _ _ _ Hm Ha).
        apply advance_Some in Ha as [Hm' _].
        now rewrite (IH (S n) st' Hm'). }
    intros fuel. unfold fetchCandles. now rewrite Hw.
Qed.

(** X3. Every page that lets the loop go on has at least [LIMIT] candles:
    on entering iteration [k], at least [k * LIMIT] candles have been
    accumulated. *)
Theorem accumulated_at_least_limit_per_page k : forall st,
  entry Date_getTime upstream env max_arguments k = Some st ->
  Z.of_nat k * LIMIT env <= Z.of_nat (length (allCandles st)).
Proof.
  induction k as [|k IH]; intros st He.
  - inversion He; subst. simpl. lia.
  - rewrite entry_S in He.
    destruct (entry Date_getTime upstream env max_arguments k) as [st_k|] eqn:Hk;
      [|discriminate].
    simpl in He. specialize (IH st_k eq_refl).
    destruct (advance_inv _ _ _ _ _ _ He)
      as (raws & candles & c & _ & _ & _ & _ & Hfull & ->).
    simpl. rewrite length_app. lia.
Qed.

(** X4. When the last candle of a page opens at or after the requested
    start time and closes no earlier than it opens, the cursor of the next
    request is strictly greater than the cursor of this one. *)
Theorem cursor_strictly_advances k st st' :
  entry Date_getTime upstream env max_arguments k = Some st ->
  entry Date_getTime upstream env max_arguments (S k) = Some st' ->
  (forall rawCandles r,
     upstream k (request env st) = Data rawCandles ->
     last rawCandles = Some r ->
     number_le (startTime st) (raw0 r) /\ raw0 r <= raw6 r) ->
  exists a b, startTime st = Num a /\ startTime st' = Num b /\ a < b.
Proof.
  intros He He' Hlast. rewrite entry_S, He in He'. simpl in He'.
  destruct (advance_inv _ _ _ _ _ _ He')
    as (raws & candles & c & Hup & Hne & Hmap & Hc & _ & ->).
  destruct (mapM_mapCandle_last _ _ Hmap Hne) as (c' & r & Hc' & Hr & Hrc).
  rewrite Hc in Hc'. inversion Hc'; subst c'.
  apply mapCandle_times in Hrc as [_ Hclose].
  destruct (Hlast raws r Hup Hr) as [Hle Hoc].
  destruct (startTime st) as [|a]; [contradiction|]. simpl in Hle.
  exists a, (closeTime c + 1). simpl. rewrite Hclose.
  split; [reflexivity|]. split; [reflexivity|]. lia.
Qed.

End Paging.

(** ** The trace of a finished run *)

Section Traces.

Variable Date_getTime : string -> number.
Variable upstream : nat -> Params.t -> response.
Variable env : Env.
Variable max_arguments : positive.
Variable writeFileSync : directory -> string -> string -> bool.


(** An iteration keeps the accumulated candles mapped. *)
Lemma body_keeps_mapped n st :
  mapped (allCandles st) ->
  mapped (allCandles (body upstream env max_arguments n st).1.2).
Proof.
  intros Hmapped.
  destruct (body_case upstream env max_arguments n st)
    as [[_ Hb] | [[_ Hb] |
        (raws & candles & c & _ & _ & Hmap & _ & _ & Hb)]];
    rewrite Hb; simpl; auto.
  apply Forall_app. split; [exact Hmapped|].
  eapply mapM_mapCandle_mapped, Hmap.
Qed.

(** The trace of the loop: a request and its delay for every page that
    was appended, and then, unless the last of them was a short page, one
    more request, followed by the error message when it did not end by an
    empty page. *)
Lemma while_paced fuel : forall n st t stf,
  while upstream env max_arguments fuel n st = Some (t, stf) ->
  mapped (allCandles st) ->
  exists ps last,
    t = paced (REQ_DELAY_MS env) ps ++ last /\
    (last = [] \/
     exists p,
       configured env p /\
       (last = [HttpGet p] \/
        last = [HttpGet p; ConsoleError MsgErrorFetching])) /\
    Forall (configured env) ps /\
    mapped (allCandles stf) /\
    (fetchMore st = true ->
     exists rest, requests t = request env st :: rest).
Proof.
  assert (Hcfg : forall st, configured env (request env st))
    by (intros st; repeat split).
  assert (Hstop : forall fuel n st t stf,
             fetchMore st = false ->
             while upstream env max_arguments fuel n st = Some (t, stf) ->
             t = [] /\ stf = st).
  { intros f n st t stf Hm H. destruct f; simpl in H; rewrite Hm in H;
      inversion H; auto. }
  induction fuel as [|fuel IH]; intros n st t stf H Hmapped.
  - destruct (fetchMore st) eqn:Hm.
    + simpl in H. rewrite Hm in H. discriminate.
    + destruct (Hstop _ _ _ _ _ Hm H) as [-> ->].
      exists [], []. repeat split; auto. discriminate.
  - destruct (fetchMore st) eqn:Hm.
    2: { destruct (Hstop _ _ _ _ _ Hm H) as [-> ->].
         exists [], []. repeat split; auto. discriminate. }
    pose proof (body_keeps_mapped n st Hmapped) as Hkeep.
    simpl in H. rewrite Hm in H.
    destruct (body_case upstream env max_arguments n st)
      as [[_ Hb] | [[_ Hb] |
          (raws & candles & c & _ & _ & _ & _ & _ & Hb)]];
      rewrite Hb in H, Hkeep; simpl in Hkeep.
    + destruct (while upstream env max_arguments fuel (S n) (caught st))
        as [[t' s']|] eqn:Hw; [|discriminate].
      simpl in H. inversion H; subst; clear H.
      destruct (Hstop fuel (S n) (caught st) t' stf eq_refl Hw) as [-> ->].
      exists [], [HttpGet (request env st); ConsoleError MsgErrorFetching].
      split; [reflexivity|]. split; [right; eauto|].
      split; [constructor|]. split; [exact Hkeep|]. intros _. eexists.
      reflexivity.
    + injection H as <- <-.
      exists [], [HttpGet (request env st)].
      split; [reflexivity|]. split; [right; eauto|].
      split; [constructor|]. split; [exact Hkeep|]. intros _. eexists.
      reflexivity.
    + match type of H with
      | context [while upstream env max_arguments fuel (S n) ?s] =>
          destruct (while upstream env max_arguments fuel (S n) s)
            as [[t' s']|] eqn:Hw; [|discriminate]
      end.
      simpl in H. inversion H; subst; clear H.
      destruct (IH _ _ _ _ Hw Hkeep) as (ps & lst & -> & Hl & Hps & Hm' & _).
      exists (request env st :: ps), lst.
      split; [reflexivity|]. split; [exact Hl|].
      split; [constructor; auto|]. split; [exact Hm'|]. intros _.
      eexists. reflexivity.
Qed.

Lemma requests_paced ms ps : requests (paced ms ps) = ps.
Proof.
  induction ps as [|p ps IH]; [reflexivity|].
  change (paced ms (p :: ps)) with ([HttpGet p; Delay ms] ++ paced ms ps).
  unfold requests in *. rewrite omap_app. simpl. f_equal. exact IH.
Qed.

Lemma fetchCandles_inv fuel t c :
  fetchCandles Date_getTime upstream env max_arguments writeFileSync fuel =
    Some (t, c) ->
  exists pre stf,
    while upstream env max_arguments fuel 0 (initial Date_getTime env) =
      Some (pre, stf) /\
    if writeFileSync Cwd (OUTPUT_FILE env) (spec_file (allCandles stf)) then
      c = Returns /\
      t = ConsoleLog (MsgFetching (SYMBOL env) (INTERVAL env) (START_DATE env))
          :: pre ++
          [WriteFile Cwd (OUTPUT_FILE env) (spec_file (allCandles stf));
           ConsoleLog (MsgSaved (length (allCandles stf)) Cwd (OUTPUT_FILE env));
           ConsoleLog MsgCompleted]
    else
      c = Rejects /\
      t = ConsoleLog (MsgFetching (SYMBOL env) (INTERVAL env) (START_DATE env))
          :: pre ++
          [WriteFile Cwd (OUTPUT_FILE env) (spec_file (allCandles stf))].
Proof.
  unfold fetchCandles.
  destruct (while upstream env max_arguments fuel 0 (initial Date_getTime env))
    as [[pre stf]|]; [|discriminate].
  simpl. unfold saveCandlesToFile. rewrite csv_spec_file.
  intros H. exists pre, stf. split; [reflexivity|].
  destruct (writeFileSync Cwd (OUTPUT_FILE env) (spec_file (allCandles stf)));
    inversion H; auto.
Qed.

Lemma events_inv fuel t :
  events (fetchCandles Date_getTime upstream env max_arguments writeFileSync
            fuel) = Some t ->
  exists c,
    fetchCandles Date_getTime upstream env max_arguments writeFileSync fuel =
      Some (t, c).
Proof.
  unfold events.
  destruct (fetchCandles Date_getTime upstream env max_arguments writeFileSync
              fuel) as [[t' c]|]; [|discriminate].
  simpl. intros H. inversion H. eauto.
Qed.

(** X5. Every finished run sends at least one request.  The first one
    carries the parsed START_DATE as its [startTime], and every request
    carries the configured symbol, interval and limit. *)
Theorem requests_carry_the_configuration fuel t :
  events (fetchCandles Date_getTime upstream env max_arguments writeFileSync
            fuel) = Some t ->
  exists rest,
    requests t =
      {| Params.symbol := SYMBOL env; Params.interval := INTERVAL env;
         Params.startTime := Date_getTime (START_DATE env);
         Params.limit := LIMIT env |} :: rest /\
    Forall (configured env) rest.
Proof.
  intros H. destruct (events_inv fuel t H) as [c Hc].
  destruct (fetchCandles_inv fuel t c Hc) as (pre & stf & Hw & Ht).
  destruct (while_paced _ _ _ _ _ Hw ltac:(constructor))
    as (ps & lst & Hpre & Hl & Hps & _ & Hfirst).
  destruct (Hfirst eq_refl) as [rest Hrest].
  assert (Hall : Forall (configured env) (requests pre)).
  { rewrite Hpre. unfold requests. rewrite omap_app.
    fold (requests (paced (REQ_DELAY_MS env) ps)). rewrite requests_paced.
    apply Forall_app. split; [exact Hps|].
    destruct Hl as [-> | (p & Hp & [-> | ->])]; simpl; auto. }
  assert (Hreq : requests t = requests pre).
  { destruct (writeFileSync Cwd (OUTPUT_FILE env) _);
      destruct Ht as [_ ->]; unfold requests; simpl; rewrite omap_app; simpl;
      now rewrite app_nil_r. }
  exists rest. rewrite Hreq, Hrest. split; [reflexivity|].
  rewrite Hrest in Hall. now inversion Hall.
Qed.



End Traces.


(** ** Mapping, and the re-mapping of the legacy script *)

Section Mapping.

Variable Date_getTime : string -> number.
Variable upstream : nat -> Params.t -> response.
Variable env : Env.
Variable max_arguments : positive.
Variable writeFileSync : directory -> string -> string -> bool.

(** X12. Whatever [mapCandle] produced, the script's re-mapping before
    saving gives back unchanged: keeping only the seven [Candle] fields of
    a mapped page and mapping the array built from them restores every
    candle, ISO columns included, and does not throw. *)
Theorem remap_restores_mapped_candles rawCandles candles :
  mapM mapCandle rawCandles = Some candles ->
  mapM Legacy.remap (map candle candles) = Some candles.
Proof.
  intros H. apply mapM_remap. eapply mapM_mapCandle_mapped, H.
Qed.

(** X13. The loop of the script goes on after an iteration exactly when
    the answer is a non-empty page, the cursor it prints is a valid [Date]
    time value, the page maps, it has no more candles than one call takes
    arguments, and it has at least [LIMIT] records. *)
Theorem legacy_loop_goes_on_iff n (st : Legacy.locals) :
  Legacy.fetchMore st = true ->
  ((Legacy.body upstream env max_arguments n st).2 = Next /\
   Legacy.fetchMore (Legacy.body upstream env max_arguments n st).1.2 = true <->
   exists rawCandles candles,
     upstream n (Legacy.request env st) = Data rawCandles /\
     rawCandles <> [] /\
     formatCandleTime (Legacy.startTime st) <> None /\
     mapM mapCandle rawCandles = Some candles /\
     Z.of_nat (length candles) <= Z.pos max_arguments /\
     LIMIT env <= Z.of_nat (length rawCandles)).
Proof.
  intros Hm. unfold Legacy.body, Legacy.failed.
  change Legacy.mapCandle with mapCandle.
  destruct (upstream n (Legacy.request env st)) as [|rawCandles] eqn:Hup.
  { simpl. split; [intros [_ H]; discriminate|].
    intros (? & ? & H & _). discriminate. }
  destruct rawCandles as [|r rs]; cbn [length Nat.eqb].
  { simpl. split; [intros [H _]; discriminate|].
    intros (raws & ? & H & Hne & _). inversion H; subst. now elim Hne. }
  destruct (formatCandleTime (Legacy.startTime st)) as [iso|] eqn:Hf.
  2: { simpl. split; [intros [_ H]; discriminate|].
       intros (? & ? & _ & _ & H & _). now elim H. }
  destruct (mapM mapCandle (r :: rs)) as [candles|] eqn:Hmap.
  2: { simpl. split; [intros [_ H]; discriminate|].
       intros (raws & ? & H & _ & _ & Hmap' & _). inversion H; subst.
       rewrite Hmap in Hmap'. discriminate. }
  destruct (Z.pos max_arguments <? Z.of_nat (length candles)) eqn:Hfit.
  { apply Z.ltb_lt in Hfit. simpl. split; [intros [_ H]; discriminate|].
    intros (raws & cs & H & _ & _ & Hmap' & Hfit' & _). inversion H; subst.
    rewrite Hmap in Hmap'. inversion Hmap'; subst. lia. }
  apply Z.ltb_ge in Hfit.
  destruct (mapM_mapCandle_last _ _ Hmap ltac:(discriminate))
    as (c & r' & -> & _ & _).
  pose proof (length_mapM _ _ _ Hmap) as Hlen. simpl.
  destruct (Z.of_nat (length candles) <? LIMIT env) eqn:Hlt.
  - apply Z.ltb_lt in Hlt. split; [intros [_ H]; discriminate|].
    intros (raws & ? & H & _ & _ & _ & _ & Hfull). inversion H; subst.
    simpl in Hfull, Hlen. lia.
  - apply Z.ltb_ge in Hlt. split; [|auto].
    intros _. exists (r :: rs), candles.
    repeat split; try discriminate; auto. simpl in *. lia.
Qed.




End Mapping.


(** ** The text of the file *)

Section Text.

Lemma occurrences_app a s1 s2 :
  occurrences a (s1 +:+ s2) = (occurrences a s1 + occurrences a s2)%nat.
Proof.
  induction s1 as [|b s1 IH]; simpl; [reflexivity|]. rewrite IH. lia.
Qed.

Lemma occurrences_none a s :
  occurrences a s = 0%nat ->
  forall b, In b (list_ascii_of_string s) -> Ascii.eqb a b = false.
Proof.
  induction s as [|c s IH]; simpl; [contradiction|].
  intros H b [<-|Hb].
  - destruct (Ascii.eqb a c); [discriminate H|reflexivity].
  - apply IH; [|exact Hb]. destruct (Ascii.eqb a c); [discriminate H|exact H].
Qed.

(** Any character outside [generated_characters]. *)
Variable a : ascii.
Hypothesis Ha : occurrences a generated_characters = 0%nat.

Ltac other_character :=
  rewrite (occurrences_none a generated_characters Ha) by (simpl; tauto).

Lemma occurrences_uint u :
  occurrences a (NilEmpty.string_of_uint u) = 0%nat.
Proof. induction u; simpl; try other_character; auto. Qed.

Lemma occurrences_Number_toString z :
  occurrences a (Number_toString z) = 0%nat.
Proof.
  assert (Hu : forall u, occurrences a (NilZero.string_of_uint u) = 0%nat).
  { intros u. unfold NilZero.string_of_uint.
    destruct u; try apply occurrences_uint.
    simpl. other_character. reflexivity. }
  unfold Number_toString, NilZero.string_of_int.
  destruct (Z.to_int z) as [u|u]; [apply Hu|].
  cbn [occurrences]. other_character. apply Hu.
Qed.

Lemma occurrences_zeros n : occurrences a (zeros n) = 0%nat.
Proof. induction n; simpl; try other_character; auto. Qed.

Lemma occurrences_padded w z : occurrences a (padded w z) = 0%nat.
Proof.
  unfold padded. now rewrite occurrences_app, occurrences_zeros,
    occurrences_Number_toString.
Qed.

Lemma occurrences_iso_of_time t : occurrences a (iso_of_time t) = 0%nat.
Proof.
  unfold iso_of_time. destruct (civil_from_days (t / msPerDay)) as [[y m] d].
  unfold iso_year.
  destruct ((0 <=? y) && (y <=? 9999)); [|destruct (y <? 0)];
    rewrite !occurrences_app, !occurrences_padded; simpl;
    repeat other_character; reflexivity.
Qed.

End Text.

(** ** Columns and lines *)

Lemma mapCandle_inv r c :
  mapCandle r = Some c ->
  c = {| candle := {| openTime := raw0 r; open := raw1 r; high := raw2 r;
                      low := raw3 r; close := raw4 r; volume := raw5 r;
                      closeTime := raw6 r |};
         openISO := iso_of_time (raw0 r);
         closeISO := iso_of_time (raw6 r) |}.
Proof.
  unfold mapCandle, formatCandleTime, Date_toISOString, TimeClip.
  destruct (Z.abs (raw0 r) <=? MAX_TIME); [|discriminate].
  destruct (Z.abs (raw6 r) <=? MAX_TIME); [|discriminate].
  simpl. intros H. now inversion H.
Qed.

(** Occurrences, in a mapped row, of a character that the generated
    columns cannot contain: the separators, when it is the comma, and
    whatever the five strings of the record contain. *)
Lemma occurrences_row a r c :
  occurrences a generated_characters = 0%nat ->
  mapCandle r = Some c ->
  occurrences a (row c) =
    ((if Ascii.eqb a "," then 8 else 0) +
     (occurrences a (raw1 r) + occurrences a (raw2 r) + occurrences a (raw3 r)
      + occurrences a (raw4 r) + occurrences a (raw5 r)))%nat.
Proof.
  intros Ha Hmap. rewrite (mapCandle_inv r c Hmap). unfold row. simpl.
  rewrite !occurrences_app, !(occurrences_Number_toString a Ha),
    !(occurrences_iso_of_time a Ha).
  simpl. destruct (Ascii.eqb a ","); lia.
Qed.

(** X15. Fields are written as they are, without quoting: a row made
    from a mapped record has its eight separating commas and, besides,
    every comma that the five price and volume strings contain. *)
Theorem row_has_eight_separators r c :
  mapCandle r = Some c ->
  occurrences "," (row c) =
    (8 + (occurrences "," (raw1 r) + occurrences "," (raw2 r)
          + occurrences "," (raw3 r) + occurrences "," (raw4 r)
          + occurrences "," (raw5 r)))%nat.
Proof. intros H. now rewrite (occurrences_row "," r c eq_refl H). Qed.

Lemma occurrences_join a k rows :
  Forall (fun s => occurrences a s = k) rows ->
  occurrences a (join nl rows) =
    (length rows * k + (length rows - 1) * occurrences a nl)%nat.
Proof.
  induction 1 as [|s rows Hs Hrows IH]; [reflexivity|].
  destruct rows as [|s' rows'].
  - simpl. lia.
  - change (join nl (s :: s' :: rows'))
      with (s +:+ nl +:+ join nl (s' :: rows')).
    rewrite !occurrences_app, IH, Hs. simpl length.
    generalize (occurrences a nl). intros x. nia.
Qed.

Lemma plain_row c :
  (exists r, mapCandle r = Some c) ->
  plain_fields c ->
  occurrences "," (row c) = 8%nat /\
  occurrences (ascii_of_nat 10) (row c) = 0%nat.
Proof.
  intros [r Hr] Hplain.
  rewrite (occurrences_row "," r c eq_refl Hr),
    (occurrences_row (ascii_of_nat 10) r c eq_refl Hr).
  rewrite (mapCandle_inv r c Hr) in Hplain.
  destruct Hplain as ([? ?] & [? ?] & [? ?] & [? ?] & [? ?]).
  simpl in *. split; lia.
Qed.

(** X16. When the price and volume strings of the accumulated candles
    contain neither a comma nor a line feed, the file has eight commas on
    the header line and on every row, and one line feed per row (a single
    one, after the header, when there are no rows): rows are joined by
    line feeds and the last row is not followed by one. *)
Theorem file_of_plain_candles candles :
  mapped candles ->
  Forall plain_fields candles ->
  occurrences "," (csv candles) = (8 * S (length candles))%nat /\
  occurrences (ascii_of_nat 10) (csv candles) = Nat.max 1 (length candles).
Proof.
  intros Hmapped Hplain. unfold csv. rewrite !occurrences_app.
  assert (Hrows : Forall (fun s => occurrences "," s = 8%nat /\
                                   occurrences (ascii_of_nat 10) s = 0%nat)
                         (map row candles)).
  { apply Forall_fmap.
    induction Hmapped as [|c cs Hc _ IH]; constructor.
    - inversion Hplain; subst. now apply plain_row.
    - apply IH. now inversion Hplain. }
  rewrite (occurrences_join "," 8 (map row candles)),
    (occurrences_join (ascii_of_nat 10) 0 (map row candles)).
  - rewrite length_map. simpl. split; lia.
  - eapply Forall_impl; [exact Hrows|]. now intros s [_ ?].
  - eapply Forall_impl; [exact Hrows|]. now intros s [? _].
Qed.

(** ** The width of the ISO columns *)

Lemma string_length_app s1 s2 :
  String.length (s1 +:+ s2) = (String.length s1 + String.length s2)%nat.
Proof. induction s1 as [|b s1 IH]; simpl; [reflexivity|]. now rewrite IH. Qed.

(** A width checked on every number below [bound] holds for each. *)
Lemma padded_width_below w bound :
  forallb (fun n => (String.length (padded w (Z.of_nat n)) =? w)%nat)
          (seq 0 bound) = true ->
  forall z, 0 <= z < Z.of_nat bound -> String.length (padded w z) = w.
Proof.
  intros Hall z Hz. rewrite forallb_forall in Hall.
  specialize (Hall (Z.to_nat z)).
  rewrite Z2Nat.id in Hall by lia. apply Nat.eqb_eq, Hall.
  apply in_seq. lia.
Qed.

Lemma padded_2 z : 0 <= z < 100 -> String.length (padded 2 z) = 2%nat.
Proof. apply (padded_width_below 2 100). vm_compute. reflexivity. Qed.

Lemma padded_3 z : 0 <= z < 1000 -> String.length (padded 3 z) = 3%nat.
Proof. apply (padded_width_below 3 1000). vm_compute. reflexivity. Qed.

Lemma padded_4 z : 0 <= z < 10000 -> String.length (padded 4 z) = 4%nat.
Proof.
  intros H. apply (padded_width_below 4 (Z.to_nat 10000)); [|lia].
  vm_compute. reflexivity.
Qed.

(** Month and day of a civil date are calendar values, and the days of
    the years 0 to 9999 are the days -719528 to 2932896. *)
Lemma civil_from_days_bounds days :
  1 <= (civil_from_days days).1.2 <= 12 /\
  1 <= (civil_from_days days).2 <= 31 /\
  (-719528 <= days <= 2932896 -> 0 <= (civil_from_days days).1.1 <= 9999).
Proof.
  unfold civil_from_days. cbv zeta. simpl.
  destruct (_ <? 10) eqn:Hmp;
    [apply Z.ltb_lt in Hmp | apply Z.ltb_ge in Hmp];
    (destruct (_ <=? 2) eqn:Hm;
     [apply Z.leb_le in Hm | apply Z.leb_gt in Hm]);
    Z.div_mod_to_equations; lia.
Qed.

(** X17. For every time from 0000-01-01T00:00:00.000Z to
    9999-12-31T23:59:59.999Z [formatCandleTime] returns a string of
    exactly 24 characters. *)
Theorem iso_column_has_24_characters t :
  -62167219200000 <= t <= 253402300799999 ->
  exists s,
    formatCandleTime (Num t) = Some s /\ String.length s = 24%nat.
Proof.
  intros Ht. unfold formatCandleTime, Date_toISOString, TimeClip.
  assert (Hclip : (Z.abs t <=? MAX_TIME) = true)
    by (apply Z.leb_le; unfold MAX_TIME; lia).
  rewrite Hclip. eexists. split; [reflexivity|].
  unfold iso_of_time.
  destruct (civil_from_days_bounds (t / msPerDay)) as (Hm & Hd & Hy).
  assert (Hdays : -719528 <= t / msPerDay <= 2932896)
    by (unfold msPerDay; Z.div_mod_to_equations; lia).
  specialize (Hy Hdays).
  destruct (civil_from_days (t / msPerDay)) as [[y m] d]. simpl in Hm, Hd, Hy.
  unfold iso_year.
  assert (Hyear : ((0 <=? y) && (y <=? 9999)) = true)
    by (apply andb_true_intro; split; apply Z.leb_le; lia).
  rewrite Hyear, !string_length_app.
  rewrite (padded_4 y), (padded_2 m), (padded_2 d) by lia.
  rewrite !padded_2, padded_3;
    try (unfold msPerDay; Z.div_mod_to_equations; lia).
  reflexivity.
Qed.

(** ** The loop only appends *)

Section Growth.

Variable Date_getTime : string -> number.
Variable upstream : nat -> Params.t -> response.
Variable env : Env.
Variable max_arguments : positive.
Variable writeFileSync : directory -> string -> string -> bool.

(** X18. The accumulated sequence only grows at its end: what has been
    accumulated on entering an iteration is a prefix of what has been
    accumulated on entering any later one. *)
Theorem accumulated_only_grows k j st st' :
  entry Date_getTime upstream env max_arguments k = Some st ->
  entry Date_getTime upstream env max_arguments (k + j) = Some st' ->
  allCandles st `prefix_of` allCandles st'.
Proof.
  intros He. revert st'. induction j as [|j IH]; intros st' He'.
  - rewrite Nat.add_0_r, He in He'. inversion He'; subst. reflexivity.
  - rewrite Nat.add_succ_r, entry_S in He'.
    destruct (entry Date_getTime upstream env max_arguments (k + j)) as [st_j|] eqn:Hj;
      [|discriminate].
    simpl in He'.
    destruct (advance_inv _ _ _ _ _ _ He')
      as (raws & candles & c & _ & _ & _ & _ & _ & ->).
    simpl. etransitivity; [exact (IH st_j eq_refl)|].
    now apply prefix_app_r.
Qed.

End Growth.


(** ** Concrete runs for the further properties *)

Lemma loop_goes_on_iff_full_page_witness :
  is_Some (advance Sample.minutes Sample.one_per_page Scenario.max_arguments 0
             (initial Sample.Date_getTime Sample.one_per_page)) /\
  ~ is_Some (advance Sample.minutes Sample.readme Scenario.max_arguments 0
               (initial Sample.Date_getTime Sample.readme)) /\
  ~ is_Some (advance Scenario.pair Sample.one_per_page Scenario.one_argument 0
               (initial Sample.Date_getTime Sample.one_per_page)).
Proof.
  split; [|split].
  - apply (loop_goes_on_iff_full_page Sample.minutes Sample.one_per_page
             Scenario.max_arguments
             0%nat (initial Sample.Date_getTime Sample.one_per_page) eq_refl).
    exists [Sample.kline 1704067200000 1704067259999]. eexists.
    split; [reflexivity|]. split; [discriminate|].
    split; [reflexivity|]. split; [vm_compute; discriminate|]. simpl. lia.
  - intros H.
    apply (loop_goes_on_iff_full_page Sample.minutes Sample.readme
             Scenario.max_arguments
             0%nat (initial Sample.Date_getTime Sample.readme) eq_refl) in H.
    destruct H as (raws & candles & Hup & _ & _ & _ & Hfull).
    vm_compute in Hup. inversion Hup; subst raws. simpl in Hfull. lia.
  - intros H.
    apply (loop_goes_on_iff_full_page Scenario.pair Sample.one_per_page
             Scenario.one_argument
             0%nat (initial Sample.Date_getTime Sample.one_per_page) eq_refl)
      in H.
    destruct H as (raws & candles & Hup & _ & Hmap & Hfit & _).
    vm_compute in Hup. inversion Hup; subst raws.
    vm_compute in Hmap. inversion Hmap; subst candles.
    vm_compute in Hfit. now apply Hfit.
Defined.

Lemma full_pages_never_end_witness :
  fetchCandles Sample.Date_getTime Scenario.stale Sample.one_per_page
    Scenario.max_arguments Scenario.disk 1000 = None.
Proof.
  apply (full_pages_never_end Sample.Date_getTime Scenario.stale
           Sample.one_per_page Scenario.max_arguments Scenario.disk).
  intros n p. exists [Sample.kline 0 59999]. eexists.
  split; [reflexivity|]. split; [discriminate|].
  split; [reflexivity|]. split; [vm_compute; discriminate|]. simpl. lia.
Defined.

Lemma accumulated_at_least_limit_per_page_witness :
  exists st,
    entry Sample.Date_getTime Sample.minutes Sample.one_per_page
      Scenario.max_arguments 2 = Some st /\
    2 * 1 <= Z.of_nat (length (allCandles st)).
Proof.
  eexists. split; [reflexivity|].
  exact (accumulated_at_least_limit_per_page Sample.Date_getTime
           Sample.minutes Sample.one_per_page Scenario.max_arguments
           2%nat _ eq_refl).
Defined.

Lemma cursor_strictly_advances_witness :
  exists st st' a b,
    entry Sample.Date_getTime Sample.minutes Sample.one_per_page
      Scenario.max_arguments 0 = Some st /\
    entry Sample.Date_getTime Sample.minutes Sample.one_per_page
      Scenario.max_arguments 1 = Some st' /\
    startTime st = Num a /\ startTime st' = Num b /\ a < b.
Proof.
  destruct (cursor_strictly_advances Sample.Date_getTime Sample.minutes
              Sample.one_per_page Scenario.max_arguments 0%nat
              (initial Sample.Date_getTime Sample.one_per_page) _
              eq_refl eq_refl)
    as (a & b & Ha & Hb & Hlt).
  - intros raws r Hup Hr. vm_compute in Hup. inversion Hup; subst raws.
    vm_compute in Hr. inversion Hr; subst r.
    vm_compute. split; discriminate.
  - eexists _, _, a, b. repeat split; assumption.
Defined.

Lemma requests_carry_the_configuration_witness :
  exists t rest,
    events (fetchCandles Sample.Date_getTime Sample.minutes
              Sample.one_per_page Scenario.max_arguments Scenario.disk 3) =
      Some t /\
    requests t =
      {| Params.symbol := "BTCUSDT"; Params.interval := "1m";
         Params.startTime := Num 1704067200000; Params.limit := 1 |} :: rest /\
    Forall (configured Sample.one_per_page) rest.
Proof.
  destruct (requests_carry_the_configuration Sample.Date_getTime
              Sample.minutes Sample.one_per_page Scenario.max_arguments
              Scenario.disk 3%nat _ eq_refl)
    as (rest & Hreq & Hcfg).
  eexists _, rest. split; [reflexivity|]. split; assumption.
Defined.



Lemma remap_restores_mapped_candles_witness :
  exists candles,
    mapM mapCandle [Sample.kline 1000 1299; Sample.kline 1300 1599] =
      Some candles /\
    mapM Legacy.remap (map candle candles) = Some candles.
Proof.
  eexists. split; [reflexivity|].
  exact (remap_restores_mapped_candles
           [Sample.kline 1000 1299; Sample.kline 1300 1599] _ eq_refl).
Defined.

Lemma legacy_loop_goes_on_iff_witness :
  (Legacy.body Sample.last_instant Sample.one_per_page Scenario.max_arguments
     0 (Legacy.initial Sample.Date_getTime Sample.one_per_page)).2 = Next /\
  Legacy.fetchMore
    (Legacy.body Sample.last_instant Sample.one_per_page
       Scenario.max_arguments 0
       (Legacy.initial Sample.Date_getTime Sample.one_per_page)).1.2 = true.
Proof.
  apply (legacy_loop_goes_on_iff Sample.last_instant Sample.one_per_page
           Scenario.max_arguments
           0%nat (Legacy.initial Sample.Date_getTime Sample.one_per_page)
           eq_refl).
  exists [Sample.kline (MAX_TIME - 59999) MAX_TIME]. eexists.
  split; [reflexivity|]. split; [discriminate|].
  split; [vm_compute; discriminate|].
  split; [reflexivity|]. split; [vm_compute; discriminate|]. simpl. lia.
Defined.


Lemma row_has_eight_separators_witness :
  exists c,
    mapCandle (Sample.kline 1000 1299) = Some c /\
    occurrences "," (row c) = 8%nat.
Proof.
  eexists. split; [reflexivity|].
  exact (row_has_eight_separators (Sample.kline 1000 1299) _ eq_refl).
Defined.

Lemma file_of_plain_candles_witness :
  exists candles,
    mapM mapCandle [Sample.kline 1000 1299; Sample.kline 1300 1599] =
      Some candles /\
    occurrences "," (csv candles) = 24%nat /\
    occurrences (ascii_of_nat 10) (csv candles) = 2%nat.
Proof.
  eexists. split; [reflexivity|].
  apply file_of_plain_candles.
  - repeat constructor;
      [exists (Sample.kline 1000 1299) | exists (Sample.kline 1300 1599)];
      reflexivity.
  - repeat constructor.
Defined.

Lemma iso_column_has_24_characters_witness :
  exists s,
    formatCandleTime (Num 1735689600000) = Some s /\
    String.length s = 24%nat.
Proof. apply iso_column_has_24_characters. lia. Defined.

Lemma accumulated_only_grows_witness :
  exists st st',
    entry Sample.Date_getTime Sample.minutes Sample.one_per_page
      Scenario.max_arguments 1 = Some st /\
    entry Sample.Date_getTime Sample.minutes Sample.one_per_page
      Scenario.max_arguments 2 = Some st' /\
    allCandles st `prefix_of` allCandles st'.
Proof.
  eexists _, _. split; [reflexivity|]. split; [reflexivity|].
  exact (accumulated_only_grows Sample.Date_getTime Sample.minutes
           Sample.one_per_page Scenario.max_arguments 1%nat 1%nat _ _
           eq_refl eq_refl).
Defined.
